(** * Ticketing system canister: record lifecycle and validation

    A shallow embedding of the two sources of the canister, [src/index.ts]
    (module [IndexTs]) and the second copy of the canister, the one with the
    helper functions (module [Part000]), followed by the properties of the
    user, event, ticket and transaction stores.

    Modelling choices, all visible in the definitions below:
    - a [Principal] is represented by its textual form ([toText()]), the only
      way the code ever looks at one; a [text] is its UTF-8 encoding;
    - [nat64] (a JS bigint) and [nat32] (a JS number) are [N]; the code does
      no arithmetic on them, only comparisons and truthiness tests;
    - the four [StableBTreeMap]s are the four [gmap]s of a [Storage];
      [values()] enumerates a map (the key order of the B-tree is not
      modelled, results are read up to membership);
    - [ic.caller()], [ic.time()] and [uuidv4()] come from the host: one
      [Host] value per message, [uuidv4 ic n] being the identifier returned
      by the [n]-th call of [uuidv4()] during that message;
    - a method body is a computation on the stores that either completes or
      throws; the [try]/[catch] around every body turns an exception into
      [Err (InternalError _)] and keeps the writes done before it. *)

From Stdlib Require Import NArith String Ascii List.
From stdpp Require Import base option list strings gmap fin_maps pretty.

Open Scope string_scope.
Open Scope N_scope.

(** ** Candid types *)

Abbreviation Principal := string (only parsing).
Abbreviation text := string (only parsing).
Abbreviation nat64 := N (only parsing).
Abbreviation nat32 := N (only parsing).

(** [Opt(T)]: [Some x] is [{ Some: x }], [None] is [{ None: null }]. *)
Abbreviation Opt := option (only parsing).

Module User.
Record t := mk {
  id : Principal;
  name : text;
  role : text;
  createdAt : nat64;
  updatedAt : nat64;
}.
End User.

Module Event.
Record t := mk {
  id : text;
  name : text;
  date : nat64;
  location : text;
  organizerId : Principal;
  createdAt : nat64;
  updatedAt : nat64;
}.
End Event.

Module Ticket.
Record t := mk {
  id : text;
  role : text;
  price : nat64;
  eventId : text;
  participantId : Opt Principal;
  organizerId : Principal;
  createdAt : nat64;
  updatedAt : nat64;
}.
End Ticket.

Module Transaction.
Record t := mk {
  id : text;
  mode : text;
  pay : nat64;
  ticketId : text;
  senderId : Opt Principal;
  participantId : Principal;
  organizerId : Principal;
  createdAt : nat64;
  updatedAt : nat64;
}.
End Transaction.

Module UserPayload.
Record t := mk { name : text; role : text }.
End UserPayload.

Module EventPayload.
Record t := mk { name : text; date : nat64; location : text }.
End EventPayload.

Module TicketPayload.
Record t := mk { role : text; price : nat64; eventId : text }.
End TicketPayload.

Module TransactionPayload.
Record t := mk { pay : nat64; ticketId : text }.
End TransactionPayload.

(** The error variant of the canister. *)
Inductive Error :=
| NotFound (message : text)
| Unauthorized (message : text)
| Forbidden (message : text)
| BadRequest (message : text)
| InternalError (message : text).

Inductive Result (A : Type) :=
| Ok (value : A)
| Err (error : Error).
Arguments Ok {A} value.
Arguments Err {A} error.

(** ** The four stores *)

Record Storage := mkStorage {
  users : gmap Principal User.t;
  events : gmap text Event.t;
  tickets : gmap text Ticket.t;
  transactions : gmap text Transaction.t;
}.

Definition emptyStorage : Storage := mkStorage ∅ ∅ ∅ ∅.

Definition setUsers (st : Storage) (m : gmap Principal User.t) : Storage :=
  mkStorage m (events st) (tickets st) (transactions st).

Definition setEvents (st : Storage) (m : gmap text Event.t) : Storage :=
  mkStorage (users st) m (tickets st) (transactions st).

Definition setTickets (st : Storage) (m : gmap text Ticket.t) : Storage :=
  mkStorage (users st) (events st) m (transactions st).

Definition setTransactions (st : Storage) (m : gmap text Transaction.t) : Storage :=
  mkStorage (users st) (events st) (tickets st) m.

(** ** The host: caller, clock and identifier generator of one message *)

Record Host := mkHost {
  caller : Principal;
  time : nat64;
  uuidv4 : nat → text;
}.

(** ** Method bodies: computations on the stores that may throw *)

Inductive Completion (A : Type) :=
| Normal (value : A)
| Throw (error : text).
Arguments Normal {A} value.
Arguments Throw {A} error.

Definition Method (A : Type) : Type := Storage → Completion A * Storage.

#[global] Instance Method_ret : MRet Method := λ A a st, (Normal a, st).

#[global] Instance Method_bind : MBind Method := λ A B k m st,
  match m st with
  | (Normal a, st') => k a st'
  | (Throw error, st') => (Throw error, st')
  end.

Definition throw {A : Type} (error : text) : Method A := λ st, (Throw error, st).

(** What [`${error}`] prints for a property read on [undefined]; the exact
    wording belongs to the JS engine and nothing below depends on it. *)
Definition TypeError : text := "TypeError: cannot read property of undefined".

(** [o.Some.field] and [o.Some.method()]: [o.Some] is [undefined] when [o]
    is [None], and reading a property of [undefined] throws. *)
Definition dotSome {A : Type} (o : Opt A) : Method A :=
  match o with
  | Some a => mret a
  | None => throw TypeError
  end.

(** [try { body } catch (error) { return Err({ InternalError: `${error}` }) }] *)
Definition try_catch {A : Type} (body : Method (Result A))
    : Storage → Result A * Storage :=
  λ st,
    match body st with
    | (Normal result, st') => (result, st')
    | (Throw error, st') => (Err (InternalError error), st')
    end.

(** [update([...], Result(...), (...) => { ... })]: the reply and the stores
    as the method leaves them. *)
Definition update {A : Type} (method : Storage → Result A * Storage)
    : Storage → Result A * Storage := method.

(** [query([...], Result(...), (...) => { ... })]: the reply only. *)
Definition query {A : Type} (method : Storage → Result A * Storage)
    : Storage → Result A := λ st, (method st).1.

(** ** [StableBTreeMap]: one module per store *)

(** The values of a map, as [values()] enumerates them. *)
Definition mapValues {V : Type} (m : gmap string V) : list V := (map_to_list m).*2.

Module userStorage.
Definition containsKey (k : Principal) : Method bool :=
  λ st, (Normal (bool_decide (is_Some (users st !! k))), st).
Definition get (k : Principal) : Method (Opt User.t) :=
  λ st, (Normal (users st !! k), st).
Definition insert (k : Principal) (value : User.t) : Method (Opt User.t) :=
  λ st, (Normal (users st !! k), setUsers st (<[k := value]> (users st))).
End userStorage.

Module eventStorage.
Definition containsKey (k : text) : Method bool :=
  λ st, (Normal (bool_decide (is_Some (events st !! k))), st).
Definition get (k : text) : Method (Opt Event.t) :=
  λ st, (Normal (events st !! k), st).
Definition insert (k : text) (value : Event.t) : Method (Opt Event.t) :=
  λ st, (Normal (events st !! k), setEvents st (<[k := value]> (events st))).
Definition values : Method (list Event.t) :=
  λ st, (Normal (mapValues (events st)), st).
End eventStorage.

Module ticketStorage.
Definition containsKey (k : text) : Method bool :=
  λ st, (Normal (bool_decide (is_Some (tickets st !! k))), st).
Definition get (k : text) : Method (Opt Ticket.t) :=
  λ st, (Normal (tickets st !! k), st).
Definition insert (k : text) (value : Ticket.t) : Method (Opt Ticket.t) :=
  λ st, (Normal (tickets st !! k), setTickets st (<[k := value]> (tickets st))).
Definition values : Method (list Ticket.t) :=
  λ st, (Normal (mapValues (tickets st)), st).
End ticketStorage.

Module transactionStorage.
Definition insert (k : text) (value : Transaction.t) : Method (Opt Transaction.t) :=
  λ st, (Normal (transactions st !! k),
         setTransactions st (<[k := value]> (transactions st))).
Definition values : Method (list Transaction.t) :=
  λ st, (Normal (mapValues (transactions st)), st).
End transactionStorage.

(** ** JavaScript strings and [String.prototype.trim]

    A [text] arrives as well-formed UTF-8 and is a sequence of UTF-16 code
    units in JavaScript.  [trim] removes from both ends the code units that
    ECMAScript calls WhiteSpace (TAB, VT, FF, SP, NBSP, ZWNBSP and the
    Unicode space separators) or LineTerminator (LF, CR, LS, PS). *)

Definition isWhiteSpace (c : N) : bool :=
  (0x09 <=? c) && (c <=? 0x0D)
  || (c =? 0x20)
  || (c =? 0xA0)
  || (c =? 0x1680)
  || (0x2000 <=? c) && (c <=? 0x200A)
  || (c =? 0x2028) || (c =? 0x2029)
  || (c =? 0x202F)
  || (c =? 0x205F)
  || (c =? 0x3000)
  || (c =? 0xFEFF).

(** The payload bits of a UTF-8 continuation byte. *)
Definition continuation (b : ascii) : N := N_of_ascii b mod 0x40.

(** The code points of a UTF-8 encoded text: sequences of one to four
    bytes, told apart by the lead byte.  A text cut short in the middle of a
    sequence, which well-formed UTF-8 never is, ends in U+FFFD. *)
Fixpoint codePoints (s : string) : list N :=
  match s with
  | EmptyString => []
  | String a s1 =>
      let a := N_of_ascii a in
      if a <? 0x80 then a :: codePoints s1 else
      match s1 with
      | EmptyString => [0xFFFD]
      | String b s2 =>
          if a <? 0xE0 then
            (a mod 0x20 * 0x40 + continuation b) :: codePoints s2
          else
          match s2 with
          | EmptyString => [0xFFFD]
          | String c s3 =>
              if a <? 0xF0 then
                (a mod 0x10 * 0x1000 + continuation b * 0x40 + continuation c)
                  :: codePoints s3
              else
              match s3 with
              | EmptyString => [0xFFFD]
              | String d s4 =>
                  (a mod 0x08 * 0x40000 + continuation b * 0x1000
                   + continuation c * 0x40 + continuation d) :: codePoints s4
              end
          end
      end
  end.

(** The UTF-16 code units of a code point: itself, or a surrogate pair. *)
Definition codeUnitsOf (c : N) : list N :=
  if c <? 0x10000 then [c]
  else [0xD800 + (c - 0x10000) / 0x400; 0xDC00 + (c - 0x10000) mod 0x400].

(** The JavaScript string of a text. *)
Definition codeUnits (str : text) : list N := codePoints str ≫= codeUnitsOf.

Fixpoint trimStart (s : list N) : list N :=
  match s with
  | c :: s' => if isWhiteSpace c then trimStart s' else s
  | [] => []
  end.

Definition trimEnd (s : list N) : list N := rev (trimStart (rev s)).

Definition trim (s : list N) : list N := trimEnd (trimStart s).

(** [Array.prototype.includes]. *)
Definition includes (l : list text) (x : text) : bool := bool_decide (x ∈ l).

(** [{ ...ticket, participantId: Some(p), updatedAt: now }]. *)
Definition withParticipant (ticket : Ticket.t) (p : Principal) (now : nat64) : Ticket.t :=
  {| Ticket.id := Ticket.id ticket;
     Ticket.role := Ticket.role ticket;
     Ticket.price := Ticket.price ticket;
     Ticket.eventId := Ticket.eventId ticket;
     Ticket.participantId := Some p;
     Ticket.organizerId := Ticket.organizerId ticket;
     Ticket.createdAt := Ticket.createdAt ticket;
     Ticket.updatedAt := now |}.

(** [for (let i = 0; i < quantity; i++) { ... }] of [createTickets], the
    same loop in both sources: [i] is the index of the iteration and
    [remaining] the number of iterations left. *)
Fixpoint createTickets_loop (ic : Host) (payload : TicketPayload.t)
    (remaining : nat) (i : nat) (newTickets : list Ticket.t) : Method (list Ticket.t) :=
  match remaining with
  | O => mret newTickets
  | S remaining' =>
      let newTicket :=
        {| Ticket.id := uuidv4 ic i;
           Ticket.role := TicketPayload.role payload;
           Ticket.price := TicketPayload.price payload;
           Ticket.eventId := TicketPayload.eventId payload;
           Ticket.participantId := None;
           Ticket.organizerId := caller ic;
           Ticket.createdAt := time ic;
           Ticket.updatedAt := time ic |} in
      ticketStorage.insert (Ticket.id newTicket) newTicket;;
      createTickets_loop ic payload remaining' (S i) (newTickets ++ [newTicket])
  end.

(** The role tables, under the names of the second source. *)
Definition USER_ROLES : list text := ["organizer"; "participant"].
Definition TICKET_ROLES : list text := ["vvip"; "vip"; "regular"].

(** ** [src/index.ts] *)

Module IndexTs.

(** The same tables under the names of this source. *)
Definition USER_ROLE : list text := USER_ROLES.
Definition TICKET_ROLE : list text := TICKET_ROLES.

Definition createUser (ic : Host) (payload : UserPayload.t) :=
  update (try_catch (
    found ← userStorage.containsKey (caller ic);
    if (found : bool) then
      mret (Err (BadRequest "You already have an account"))
    else if negb (includes USER_ROLE (UserPayload.role payload)) then
      mret (Err (BadRequest "Please input a valid role: organizer or participant"))
    else
      let newUser :=
        {| User.id := caller ic;
           User.name := UserPayload.name payload;
           User.role := UserPayload.role payload;
           User.createdAt := time ic;
           User.updatedAt := time ic |} in
      userStorage.insert (User.id newUser) newUser;;
      mret (Ok newUser))).

Definition getMe (ic : Host) :=
  query (try_catch (
    found ← userStorage.containsKey (caller ic);
    if negb found then
      mret (Err (Unauthorized "Create an account first"))
    else
      user ← userStorage.get (caller ic);
      user ← dotSome user;
      mret (Ok user))).

Definition createEvent (ic : Host) (payload : EventPayload.t) :=
  update (try_catch (
    found ← userStorage.containsKey (caller ic);
    if negb found then
      mret (Err (Unauthorized "Create an account first"))
    else
      user ← userStorage.get (caller ic);
      user ← dotSome user;
      if negb (bool_decide (User.role user = "organizer")) then
        mret (Err (Forbidden "Only organizers can create events"))
      else if EventPayload.date payload <? time ic then
        mret (Err (BadRequest "Please input a valid date"))
      else
        let newEvent :=
          {| Event.id := uuidv4 ic 0;
             Event.name := EventPayload.name payload;
             Event.date := EventPayload.date payload;
             Event.location := EventPayload.location payload;
             Event.organizerId := caller ic;
             Event.createdAt := time ic;
             Event.updatedAt := time ic |} in
        eventStorage.insert (Event.id newEvent) newEvent;;
        mret (Ok newEvent))).

Definition getEvents :=
  query (try_catch (
    events ← eventStorage.values;
    mret (Ok events))).

Definition createTickets (ic : Host) (quantity : nat32) (payload : TicketPayload.t) :=
  update (try_catch (
    found ← userStorage.containsKey (caller ic);
    if negb found then
      mret (Err (Unauthorized "Create an account first"))
    else
      user ← userStorage.get (caller ic);
      user ← dotSome user;
      if negb (bool_decide (User.role user = "organizer")) then
        mret (Err (Forbidden "Only organizers can create tickets"))
      else if negb (includes TICKET_ROLE (TicketPayload.role payload)) then
        mret (Err (BadRequest "Please input a valid role: vvip, vip or regular"))
      else
        event ← eventStorage.get (TicketPayload.eventId payload);
        match event with
        | None =>
            mret (Err (NotFound
              ("Event with id " +:+ TicketPayload.eventId payload +:+ " not found")))
        | Some event =>
            if negb (bool_decide (Event.organizerId event = caller ic)) then
              mret (Err (Forbidden "Only event owner can create tickets"))
            else if Event.date event <? time ic then
              mret (Err (BadRequest "Event already started"))
            else
              newTickets ← createTickets_loop ic payload (N.to_nat quantity) 0%nat [];
              mret (Ok newTickets)
        end)).

Definition getTicketsByEvent (eventId : text) :=
  query (try_catch (
    event ← eventStorage.get eventId;
    match event with
    | None => mret (Err (NotFound ("Event with id " +:+ eventId +:+ " not found")))
    | Some _ =>
        tickets ← ticketStorage.values;
        mret (Ok (List.filter
                    (λ ticket, bool_decide (Ticket.eventId ticket = eventId)) tickets))
    end)).

Definition buyTicket (ic : Host) (payload : TransactionPayload.t) :=
  update (try_catch (
    found ← userStorage.containsKey (caller ic);
    if negb found then
      mret (Err (Unauthorized "Create an account first"))
    else
      user ← userStorage.get (caller ic);
      user ← dotSome user;
      if negb (bool_decide (User.role user = "participant")) then
        mret (Err (Forbidden "Only participants can buy tickets"))
      else
        ticket ← ticketStorage.get (TransactionPayload.ticketId payload);
        match ticket with
        | None =>
            mret (Err (NotFound
              ("Ticket with id " +:+ TransactionPayload.ticketId payload +:+ " not found")))
        | Some ticket =>
            if negb (Ticket.price ticket =? TransactionPayload.pay payload) then
              mret (Err (BadRequest
                ("Please pay the exact ticket price: " +:+ pretty (Ticket.price ticket))))
            else if bool_decide (is_Some (Ticket.participantId ticket)) then
              mret (Err (BadRequest "Ticket has already been sold"))
            else
              let newTransaction :=
                {| Transaction.id := uuidv4 ic 0;
                   Transaction.mode := "buy";
                   Transaction.pay := TransactionPayload.pay payload;
                   Transaction.ticketId := TransactionPayload.ticketId payload;
                   Transaction.senderId := None;
                   Transaction.participantId := caller ic;
                   Transaction.organizerId := Ticket.organizerId ticket;
                   Transaction.createdAt := time ic;
                   Transaction.updatedAt := time ic |} in
              ticketStorage.insert (Ticket.id ticket)
                (withParticipant ticket (Transaction.participantId newTransaction) (time ic));;
              transactionStorage.insert (Transaction.id newTransaction) newTransaction;;
              mret (Ok newTransaction)
        end)).

Definition transferTicket (ic : Host) (ticketId : text) (participantId : Principal) :=
  update (try_catch (
    found ← userStorage.containsKey (caller ic);
    if negb found then
      mret (Err (Unauthorized "Create an account first"))
    else
      found ← userStorage.containsKey participantId;
      if negb found then
        mret (Err (NotFound ("User with id " +:+ participantId +:+ " not found")))
      else
        sender ← userStorage.get (caller ic);
        sender ← dotSome sender;
        if negb (bool_decide (User.role sender = "participant")) then
          mret (Err (Forbidden "Only participants can transfer tickets"))
        else
          receiver ← userStorage.get participantId;
          receiver ← dotSome receiver;
          if negb (bool_decide (User.role receiver = "participant")) then
            mret (Err (Forbidden "Only participants can receive tickets"))
          else if bool_decide (caller ic = participantId) then
            mret (Err (BadRequest "You cannot transfer to yourself"))
          else
            ticket ← ticketStorage.get ticketId;
            match ticket with
            | None => mret (Err (NotFound ("Ticket with id " +:+ ticketId +:+ " not found")))
            | Some ticket =>
                if negb (bool_decide (Ticket.participantId ticket = Some (caller ic))) then
                  mret (Err (Forbidden "Only ticket owner can transfer it"))
                else
                  let newTransaction :=
                    {| Transaction.id := uuidv4 ic 0;
                       Transaction.mode := "transfer";
                       Transaction.pay := 0;
                       Transaction.ticketId := Ticket.id ticket;
                       Transaction.senderId := Some (caller ic);
                       Transaction.participantId := participantId;
                       Transaction.organizerId := Ticket.organizerId ticket;
                       Transaction.createdAt := time ic;
                       Transaction.updatedAt := time ic |} in
                  ticketStorage.insert (Ticket.id ticket)
                    (withParticipant ticket (Transaction.participantId newTransaction) (time ic));;
                  transactionStorage.insert (Transaction.id newTransaction) newTransaction;;
                  mret (Ok newTransaction)
            end)).

Definition getMyTickets (ic : Host) :=
  query (try_catch (
    found ← userStorage.containsKey (caller ic);
    if negb found then
      mret (Err (Unauthorized "Create an account first"))
    else
      user ← userStorage.get (caller ic);
      user ← dotSome user;
      let role := User.role user in
      tickets ← ticketStorage.values;
      mret (Ok (List.filter
                  (λ ticket,
                     if bool_decide (role = "organizer")
                     then bool_decide (Ticket.organizerId ticket = caller ic)
                     else bool_decide (Ticket.participantId ticket = Some (caller ic)))
                  tickets)))).

Definition getMyTransactions (ic : Host) :=
  query (try_catch (
    found ← userStorage.containsKey (caller ic);
    if negb found then
      mret (Err (Unauthorized "Create an account first"))
    else
      user ← userStorage.get (caller ic);
      user ← dotSome user;
      let role := User.role user in
      transactions ← transactionStorage.values;
      mret (Ok (List.filter
                  (λ transaction,
                     if bool_decide (role = "organizer")
                     then bool_decide (Transaction.organizerId transaction = caller ic)
                     else bool_decide (Transaction.participantId transaction = caller ic)
                          || bool_decide (Transaction.senderId transaction = Some (caller ic)))
                  transactions)))).

End IndexTs.

(** ** The second source of the canister (the copy with the helper
    functions) *)

Module Part000.

(** [!str.trim().length] *)
Definition isStringEmpty (str : text) : bool :=
  negb (0 <? length (trim (codeUnits str)))%nat.

Definition isUserExists (id : Principal) : Method bool :=
  userStorage.containsKey id.

Definition isEventExists (id : text) : Method bool :=
  eventStorage.containsKey id.

Definition isTicketExists (id : text) : Method bool :=
  ticketStorage.containsKey id.

(** [userStorage.get(id).Some.role === 'organizer'] *)
Definition isUserOrganizer (id : Principal) : Method bool :=
  user ← userStorage.get id;
  user ← dotSome user;
  mret (bool_decide (User.role user = "organizer")).

(** [id.toText() === ownerId.toText()]; the argument [ownerId] is the
    [.Some] of an [Opt], hence [undefined] when the [Opt] is [None], and
    [undefined.toText()] throws. *)
Definition isProductOwner (id : Principal) (ownerId : Opt Principal) : Method bool :=
  ownerId ← dotSome ownerId;
  mret (bool_decide (id = ownerId)).

(** [!participantId]: a [Principal] is an object, and every object is
    truthy. *)
Definition notPrincipal (_ : Principal) : bool := false.

(** An expression statement: the value is built and dropped. *)
Definition discard {A : Type} (_ : A) : Method unit := mret tt.

Definition createUser (ic : Host) (payload : UserPayload.t) :=
  update (try_catch (
    (if isStringEmpty (UserPayload.name payload) || isStringEmpty (UserPayload.role payload)
     then discard (Err (A := User.t) (BadRequest "Name and role cannot be empty"))
     else mret tt);;
    if negb (includes USER_ROLES (UserPayload.role payload)) then
      mret (Err (BadRequest "Please input a valid role (organizer or participant)"))
    else
      found ← isUserExists (caller ic);
      if (found : bool) then
        mret (Err (BadRequest "You already have an account"))
      else
        let newUser :=
          {| User.id := caller ic;
             User.createdAt := time ic;
             User.updatedAt := time ic;
             User.name := UserPayload.name payload;
             User.role := UserPayload.role payload |} in
        userStorage.insert (User.id newUser) newUser;;
        mret (Ok newUser))).

Definition createEvent (ic : Host) (payload : EventPayload.t) :=
  update (try_catch (
    found ← isUserExists (caller ic);
    if negb found then
      mret (Err (Unauthorized "Create an account first"))
    else
      organizer ← isUserOrganizer (caller ic);
      if negb organizer then
        mret (Err (Forbidden "Only organizers can create events"))
      else if isStringEmpty (EventPayload.name payload)
              || isStringEmpty (EventPayload.location payload)
              || (EventPayload.date payload =? 0) then
        mret (Err (BadRequest "Name, date and location cannot be empty"))
      else if EventPayload.date payload <=? time ic then
        mret (Err (BadRequest "Date must be a date in the future"))
      else
        let newEvent :=
          {| Event.id := uuidv4 ic 0;
             Event.organizerId := caller ic;
             Event.createdAt := time ic;
             Event.updatedAt := time ic;
             Event.name := EventPayload.name payload;
             Event.date := EventPayload.date payload;
             Event.location := EventPayload.location payload |} in
        eventStorage.insert (Event.id newEvent) newEvent;;
        mret (Ok newEvent))).

Definition createTickets (ic : Host) (quantity : nat32) (payload : TicketPayload.t) :=
  update (try_catch (
    found ← isUserExists (caller ic);
    if negb found then
      mret (Err (Unauthorized "Create an account first"))
    else
      organizer ← isUserOrganizer (caller ic);
      if negb organizer then
        mret (Err (Forbidden "Only organizers can create tickets"))
      else if (quantity =? 0)
              || (TicketPayload.price payload =? 0)
              || isStringEmpty (TicketPayload.role payload)
              || isStringEmpty (TicketPayload.eventId payload) then
        mret (Err (BadRequest "Quantity, role, price and event ID cannot be empty"))
      else if quantity <=? 0 then
        mret (Err (BadRequest "Quantity must be greater than 0"))
      else if TicketPayload.price payload <=? 0 then
        mret (Err (BadRequest "Price must be greater than 0"))
      else if negb (includes TICKET_ROLES (TicketPayload.role payload)) then
        mret (Err (BadRequest "Please input a valid role (vvip, vip or regular)"))
      else
        found ← isEventExists (TicketPayload.eventId payload);
        if negb found then
          mret (Err (NotFound
            ("Event with id " +:+ TicketPayload.eventId payload +:+ " not found")))
        else
          event ← eventStorage.get (TicketPayload.eventId payload);
          event ← dotSome event;
          owner ← isProductOwner (caller ic) (Some (Event.organizerId event));
          if negb owner then
            mret (Err (Forbidden "Only event owner can create tickets"))
          else if Event.date event <=? time ic then
            mret (Err (BadRequest "Event already started"))
          else
            newTickets ← createTickets_loop ic payload (N.to_nat quantity) 0%nat [];
            mret (Ok newTickets))).

Definition getMe (ic : Host) :=
  query (try_catch (
    found ← isUserExists (caller ic);
    if negb found then
      mret (Err (Unauthorized "Create an account first"))
    else
      user ← userStorage.get (caller ic);
      user ← dotSome user;
      mret (Ok user))).

Definition getEvents :=
  query (try_catch (
    events ← eventStorage.values;
    mret (Ok events))).

Definition getEventTickets (eventId : text) :=
  query (try_catch (
    found ← isEventExists eventId;
    if negb found then
      mret (Err (NotFound ("Event with id " +:+ eventId +:+ " not found")))
    else
      tickets ← ticketStorage.values;
      mret (Ok (List.filter
                  (λ ticket, bool_decide (Ticket.eventId ticket = eventId)) tickets)))).

Definition getMyTickets (ic : Host) :=
  query (try_catch (
    found ← isUserExists (caller ic);
    if negb found then
      mret (Err (Unauthorized "Create an account first"))
    else
      user ← userStorage.get (caller ic);
      user ← dotSome user;
      let role := User.role user in
      tickets ← ticketStorage.values;
      mret (Ok (List.filter
                  (λ ticket,
                     if bool_decide (role = "organizer")
                     then bool_decide (Ticket.organizerId ticket = caller ic)
                     else bool_decide (Ticket.participantId ticket = Some (caller ic)))
                  tickets)))).

Definition getMyTransactions (ic : Host) :=
  query (try_catch (
    found ← isUserExists (caller ic);
    if negb found then
      mret (Err (Unauthorized "Create an account first"))
    else
      user ← userStorage.get (caller ic);
      user ← dotSome user;
      let role := User.role user in
      transactions ← transactionStorage.values;
      mret (Ok (List.filter
                  (λ transaction,
                     if bool_decide (role = "organizer")
                     then bool_decide (Transaction.organizerId transaction = caller ic)
                     else bool_decide (Transaction.participantId transaction = caller ic)
                          || bool_decide (Transaction.senderId transaction = Some (caller ic)))
                  transactions)))).

Definition buyTicket (ic : Host) (payload : TransactionPayload.t) :=
  update (try_catch (
    found ← isUserExists (caller ic);
    if negb found then
      mret (Err (Unauthorized "Create an account first"))
    else
      organizer ← isUserOrganizer (caller ic);
      if (organizer : bool) then
        mret (Err (Forbidden "Only participants can buy tickets"))
      else if (TransactionPayload.pay payload =? 0)
              || isStringEmpty (TransactionPayload.ticketId payload) then
        mret (Err (BadRequest "Pay and ticket ID cannot be empty"))
      else
        found ← isTicketExists (TransactionPayload.ticketId payload);
        if negb found then
          mret (Err (NotFound
            ("Ticket with id " +:+ TransactionPayload.ticketId payload +:+ " not found")))
        else
          ticket ← ticketStorage.get (TransactionPayload.ticketId payload);
          ticket ← dotSome ticket;
          if negb (Ticket.price ticket =? TransactionPayload.pay payload) then
            mret (Err (BadRequest
              ("Please pay the exact ticket price: " +:+ pretty (Ticket.price ticket))))
          else if bool_decide (is_Some (Ticket.participantId ticket)) then
            mret (Err (BadRequest "Ticket has already been sold"))
          else
            let newTransaction :=
              {| Transaction.id := uuidv4 ic 0;
                 Transaction.mode := "buy";
                 Transaction.senderId := None;
                 Transaction.participantId := caller ic;
                 Transaction.organizerId := Ticket.organizerId ticket;
                 Transaction.createdAt := time ic;
                 Transaction.updatedAt := time ic;
                 Transaction.pay := TransactionPayload.pay payload;
                 Transaction.ticketId := TransactionPayload.ticketId payload |} in
            ticketStorage.insert (Ticket.id ticket)
              (withParticipant ticket (Transaction.participantId newTransaction) (time ic));;
            transactionStorage.insert (Transaction.id newTransaction) newTransaction;;
            mret (Ok newTransaction))).

Definition transferTicket (ic : Host) (ticketId : text) (participantId : Principal) :=
  update (try_catch (
    found ← isUserExists (caller ic);
    if negb found then
      mret (Err (Unauthorized "Create an account first"))
    else if isStringEmpty ticketId || notPrincipal participantId then
      mret (Err (BadRequest "Ticket ID and participant ID cannot be empty"))
    else
      found ← isUserExists participantId;
      if negb found then
        mret (Err (NotFound ("User with id " +:+ participantId +:+ " not found")))
      else
        same ← isProductOwner (caller ic) (Some participantId);
        if (same : bool) then
          mret (Err (BadRequest "You cannot transfer to yourself"))
        else
          senderOrganizer ← isUserOrganizer (caller ic);
          organizer ← (if (senderOrganizer : bool) then mret true
                       else isUserOrganizer participantId);
          if (organizer : bool) then
            mret (Err (Forbidden "Only participants can transfer tickets"))
          else
            found ← isTicketExists ticketId;
            if negb found then
              mret (Err (NotFound ("Ticket with id " +:+ ticketId +:+ " not found")))
            else
              ticket ← ticketStorage.get ticketId;
              ticket ← dotSome ticket;
              owner ← isProductOwner (caller ic) (Ticket.participantId ticket);
              if negb owner then
                mret (Err (Forbidden "Only ticket owner can transfer it"))
              else
                let newTransaction :=
                  {| Transaction.id := uuidv4 ic 0;
                     Transaction.mode := "transfer";
                     Transaction.pay := 0;
                     Transaction.ticketId := Ticket.id ticket;
                     Transaction.senderId := Some (caller ic);
                     Transaction.participantId := participantId;
                     Transaction.organizerId := Ticket.organizerId ticket;
                     Transaction.createdAt := time ic;
                     Transaction.updatedAt := time ic |} in
                ticketStorage.insert (Ticket.id ticket)
                  (withParticipant ticket (Transaction.participantId newTransaction) (time ic));;
                transactionStorage.insert (Transaction.id newTransaction) newTransaction;;
                mret (Ok newTransaction))).

End Part000.

(** ** The canister as a state machine *)

(** The two sources. *)
Inductive Version := index_ts | part_000.

Definition createUser (v : Version) :=
  match v with index_ts => IndexTs.createUser | part_000 => Part000.createUser end.
Definition createEvent (v : Version) :=
  match v with index_ts => IndexTs.createEvent | part_000 => Part000.createEvent end.
Definition createTickets (v : Version) :=
  match v with index_ts => IndexTs.createTickets | part_000 => Part000.createTickets end.
Definition buyTicket (v : Version) :=
  match v with index_ts => IndexTs.buyTicket | part_000 => Part000.buyTicket end.
Definition transferTicket (v : Version) :=
  match v with index_ts => IndexTs.transferTicket | part_000 => Part000.transferTicket end.
Definition getMe (v : Version) :=
  match v with index_ts => IndexTs.getMe | part_000 => Part000.getMe end.
Definition getEvents (v : Version) :=
  match v with index_ts => IndexTs.getEvents | part_000 => Part000.getEvents end.
Definition getTicketsByEvent (v : Version) :=
  match v with index_ts => IndexTs.getTicketsByEvent | part_000 => Part000.getEventTickets end.
Definition getMyTickets (v : Version) :=
  match v with index_ts => IndexTs.getMyTickets | part_000 => Part000.getMyTickets end.
Definition getMyTransactions (v : Version) :=
  match v with index_ts => IndexTs.getMyTransactions | part_000 => Part000.getMyTransactions end.

(** The exposed methods with their arguments. *)
Inductive Call :=
| CreateUser (payload : UserPayload.t)
| CreateEvent (payload : EventPayload.t)
| CreateTickets (quantity : nat32) (payload : TicketPayload.t)
| BuyTicket (payload : TransactionPayload.t)
| TransferTicket (ticketId : text) (participantId : Principal)
| GetMe
| GetEvents
| GetTicketsByEvent (eventId : text)
| GetMyTickets
| GetMyTransactions.

Inductive Reply :=
| UserReply (r : Result User.t)
| EventReply (r : Result Event.t)
| EventsReply (r : Result (list Event.t))
| TicketsReply (r : Result (list Ticket.t))
| TransactionReply (r : Result Transaction.t)
| TransactionsReply (r : Result (list Transaction.t)).

Definition isErr {A : Type} (r : Result A) : bool :=
  match r with Ok _ => false | Err _ => true end.

Definition failed (r : Reply) : bool :=
  match r with
  | UserReply r => isErr r
  | EventReply r => isErr r
  | EventsReply r => isErr r
  | TicketsReply r => isErr r
  | TransactionReply r => isErr r
  | TransactionsReply r => isErr r
  end.

(** One message: an update call commits the store it returns, a query call
    only reads. *)
Definition canister (v : Version) (ic : Host) (call : Call) (st : Storage)
    : Reply * Storage :=
  match call with
  | CreateUser payload => prod_map UserReply id (createUser v ic payload st)
  | CreateEvent payload => prod_map EventReply id (createEvent v ic payload st)
  | CreateTickets quantity payload =>
      prod_map TicketsReply id (createTickets v ic quantity payload st)
  | BuyTicket payload => prod_map TransactionReply id (buyTicket v ic payload st)
  | TransferTicket ticketId participantId =>
      prod_map TransactionReply id (transferTicket v ic ticketId participantId st)
  | GetMe => (UserReply (getMe v ic st), st)
  | GetEvents => (EventsReply (getEvents v st), st)
  | GetTicketsByEvent eventId => (TicketsReply (getTicketsByEvent v eventId st), st)
  | GetMyTickets => (TicketsReply (getMyTickets v ic st), st)
  | GetMyTransactions => (TransactionsReply (getMyTransactions v ic st), st)
  end.

(** The host serialises the messages: each runs to completion on the store
    left by the previous one. *)
Fixpoint run (v : Version) (calls : list (Host * Call)) (st : Storage) : Storage :=
  match calls with
  | [] => st
  | (ic, call) :: calls' => run v calls' (canister v ic call st).2
  end.

(** Who may buy or take part in a transfer: [role !== 'participant'] is
    refused in [src/index.ts], [role === 'organizer'] in the other source. *)
Definition buyer (v : Version) (user : User.t) : Prop :=
  match v with
  | index_ts => User.role user = "participant"
  | part_000 => User.role user ≠ "organizer"
  end.

(** ** The issuing loop *)

(** The ticket built by one iteration of the loop whose [uuidv4()] call
    returned [id]. *)
Definition issue (ic : Host) (payload : TicketPayload.t) (id : text) : Ticket.t :=
  {| Ticket.id := id;
     Ticket.role := TicketPayload.role payload;
     Ticket.price := TicketPayload.price payload;
     Ticket.eventId := TicketPayload.eventId payload;
     Ticket.participantId := None;
     Ticket.organizerId := caller ic;
     Ticket.createdAt := time ic;
     Ticket.updatedAt := time ic |}.

(** The identifiers returned by the calls [i], ..., [i + n - 1] of
    [uuidv4()]. *)
Definition uuids (ic : Host) (i n : nat) : list text := uuidv4 ic <$> seq i n.

Definition insertAll (ic : Host) (payload : TicketPayload.t) (ids : list text)
    (m : gmap text Ticket.t) : gmap text Ticket.t :=
  foldl (λ m id, <[id := issue ic payload id]> m) m ids.

(** ** What the host is assumed to provide

    [uuidv4()] is an injected capability.  The properties below that speak
    of new tickets or new transactions rest on what such a generator is for:
    the identifiers it returns are not yet keys of the store, differ from
    one another, and are not blank. *)

Definition uuids_fresh {V : Type} (ic : Host) (n : nat) (m : gmap text V) : Prop :=
  ∀ i, (i < n)%nat → m !! uuidv4 ic i = None.

Definition uuids_distinct (ic : Host) (n : nat) : Prop :=
  ∀ i j, (i < n)%nat → (j < n)%nat → uuidv4 ic i = uuidv4 ic j → i = j.

Definition uuids_not_blank (ic : Host) (n : nat) : Prop :=
  ∀ i, (i < n)%nat → Part000.isStringEmpty (uuidv4 ic i) = false.

(** A call is admissible when the ticket identifiers it generates are fresh
    and, for the source that tests ticket identifiers for blankness, not
    blank. *)
Definition admissible (v : Version) (ic : Host) (call : Call) (st : Storage) : Prop :=
  match call with
  | CreateTickets quantity _ =>
      uuids_fresh ic (N.to_nat quantity) (tickets st)
      ∧ (v = part_000 → uuids_not_blank ic (N.to_nat quantity))
  | _ => True
  end.

Fixpoint admissible_run (v : Version) (calls : list (Host * Call)) (st : Storage) : Prop :=
  match calls with
  | [] => True
  | (ic, call) :: calls' =>
      admissible v ic call st ∧ admissible_run v calls' (canister v ic call st).2
  end.

(** The stores the canister can be in: those a sequence of admissible calls
    builds from the empty stores. *)
Definition reachable (v : Version) (st : Storage) : Prop :=
  ∃ calls, admissible_run v calls emptyStorage ∧ st = run v calls emptyStorage.

(** ** The invariant of the reachable stores *)

Record Inv (v : Version) (st : Storage) : Prop := mkInv {
  (** a ticket is stored under its own identifier *)
  inv_ticket_key : ∀ k t, tickets st !! k = Some t → Ticket.id t = k;
  (** the holder of a ticket is a registered participant *)
  inv_holder : ∀ k t p,
    tickets st !! k = Some t → Ticket.participantId t = Some p →
    ∃ u, users st !! p = Some u ∧ User.role u = "participant";
  (** every user has one of the two roles *)
  inv_user_role : ∀ p u, users st !! p = Some u → User.role u ∈ USER_ROLES;
  (** in the source that checks them: prices are positive and ticket
      identifiers are not blank *)
  inv_checked : v = part_000 → ∀ k t,
    tickets st !! k = Some t →
    Ticket.price t ≠ 0 ∧ Part000.isStringEmpty k = false;
}.

(** ** The life of a ticket's [participantId] *)

(** How one message may move the [participantId] of the ticket stored
    under [k], from its value in [t] to its value in [t']. *)
Inductive moves (ic : Host) (call : Call) (k : text) (t t' : Ticket.t) : Prop :=
| moves_not :
    Ticket.participantId t' = Ticket.participantId t →
    moves ic call k t t'
| moves_sale pay :
    call = BuyTicket (TransactionPayload.mk pay k) →
    Ticket.participantId t = None →
    Ticket.participantId t' = Some (caller ic) →
    moves ic call k t t'
| moves_transfer participantId :
    call = TransferTicket k participantId →
    Ticket.participantId t = Some (caller ic) →
    participantId ≠ caller ic →
    Ticket.participantId t' = Some participantId →
    moves ic call k t t'.

(** The ticket a call is about. *)
Definition target (call : Call) : option text :=
  match call with
  | BuyTicket payload => Some (TransactionPayload.ticketId payload)
  | TransferTicket ticketId _ => Some ticketId
  | _ => None
  end.

(** ** A sample run

    An organizer ["O"] registers, creates the event ["e0"] and issues the
    tickets ["t0"], ["t1"] and ["t2"] at price 100; the participants ["P"]
    and ["Q"] register and ["P"] buys ["t1"]. *)

(** A host whose [n]-th identifier is [prefix] followed by [n]. *)
Definition host (who : Principal) (now : nat64) (prefix : text) : Host :=
  mkHost who now (λ n, prefix +:+ pretty n).

Definition sample_calls : list (Host * Call) :=
  [ (host "O" 10 "u", CreateUser (UserPayload.mk "Olga" "organizer"));
    (host "O" 11 "e", CreateEvent (EventPayload.mk "Gig" 100 "Hall"));
    (host "O" 12 "t", CreateTickets 3 (TicketPayload.mk "regular" 100 "e0"));
    (host "P" 13 "u", CreateUser (UserPayload.mk "Pat" "participant"));
    (host "Q" 13 "u", CreateUser (UserPayload.mk "Quinn" "participant"));
    (host "P" 14 "x", BuyTicket (TransactionPayload.mk 100 "t1")) ].

Definition sample (v : Version) : Storage := run v sample_calls emptyStorage.

(** ** Further vocabulary for the properties of the stores *)

(** The error a reply carries, if any. *)
Definition resultError {A : Type} (r : Result A) : option Error :=
  match r with Ok _ => None | Err e => Some e end.

Definition replyError (r : Reply) : option Error :=
  match r with
  | UserReply r => resultError r
  | EventReply r => resultError r
  | EventsReply r => resultError r
  | TicketsReply r => resultError r
  | TransactionReply r => resultError r
  | TransactionsReply r => resultError r
  end.

(** The identifier generated for a new event or a new transaction is not
    yet a key of its store. *)
Definition fresh_ids (ic : Host) (call : Call) (st : Storage) : Prop :=
  match call with
  | CreateEvent _ => events st !! uuidv4 ic 0 = None
  | BuyTicket _ | TransferTicket _ _ => transactions st !! uuidv4 ic 0 = None
  | _ => True
  end.

(** A run in which every generated identifier is fresh (and, for the second
    source, ticket identifiers are not blank). *)
Fixpoint hosted_run (v : Version) (calls : list (Host * Call)) (st : Storage) : Prop :=
  match calls with
  | [] => True
  | (ic, call) :: calls' =>
      admissible v ic call st ∧ fresh_ids ic call st
      ∧ hosted_run v calls' (canister v ic call st).2
  end.

(** How the records of the four stores refer to one another. *)
Record Linked (st : Storage) : Prop := mkLinked {
  (** every record is stored under its own identifier *)
  linked_user_key : ∀ p u, users st !! p = Some u → User.id u = p;
  linked_event_key : ∀ k e, events st !! k = Some e → Event.id e = k;
  linked_transaction_key : ∀ k x, transactions st !! k = Some x → Transaction.id x = k;
  (** the owner of an event is a registered organizer *)
  linked_event_owner : ∀ k e,
    events st !! k = Some e →
    ∃ u, users st !! Event.organizerId e = Some u ∧ User.role u = "organizer";
  (** a ticket belongs to an existing event and carries its owner *)
  linked_ticket_event : ∀ k t,
    tickets st !! k = Some t →
    ∃ e, events st !! Ticket.eventId t = Some e
         ∧ Event.organizerId e = Ticket.organizerId t;
  (** a transaction is about an existing ticket, carries its organizer, goes
      to a registered participant, and is either a buy at the ticket's price
      without sender or a transfer at pay 0 from another registered
      participant *)
  linked_transaction_ticket : ∀ k x,
    transactions st !! k = Some x →
    ∃ t, tickets st !! Transaction.ticketId x = Some t
         ∧ Ticket.organizerId t = Transaction.organizerId x
         ∧ (∃ u, users st !! Transaction.participantId x = Some u
                 ∧ User.role u = "participant")
         ∧ ((Transaction.mode x = "buy" ∧ Transaction.senderId x = None
             ∧ Transaction.pay x = Ticket.price t)
            ∨ (Transaction.mode x = "transfer" ∧ Transaction.pay x = 0
               ∧ ∃ s u, Transaction.senderId x = Some s
                        ∧ s ≠ Transaction.participantId x
                        ∧ users st !! s = Some u ∧ User.role u = "participant"));
  (** the holder of a ticket is the participant of a recorded transaction
      about that ticket *)
  linked_holder_transaction : ∀ k t p,
    tickets st !! k = Some t → Ticket.participantId t = Some p →
    ∃ kx x, transactions st !! kx = Some x
            ∧ Transaction.ticketId x = k ∧ Transaction.participantId x = p;
}.

(** What each source asks of the payload of [createEvent], beyond the role
    of the caller: [src/index.ts] only that the date is not in the past, the
    second source a name and a location that are not blank and a date in the
    future. *)
Definition eventAccepted (v : Version) (ic : Host) (payload : EventPayload.t) : Prop :=
  match v with
  | index_ts => time ic ≤ EventPayload.date payload
  | part_000 =>
      Part000.isStringEmpty (EventPayload.name payload) = false
      ∧ Part000.isStringEmpty (EventPayload.location payload) = false
      ∧ time ic < EventPayload.date payload
  end.

(** What each source asks of the arguments of [createTickets] before it
    looks the event up. *)
Definition ticketsAccepted (v : Version) (quantity : nat32) (payload : TicketPayload.t)
    : Prop :=
  match v with
  | index_ts => TicketPayload.role payload ∈ TICKET_ROLES
  | part_000 =>
      quantity ≠ 0 ∧ TicketPayload.price payload ≠ 0
      ∧ Part000.isStringEmpty (TicketPayload.eventId payload) = false
      ∧ TicketPayload.role payload ∈ TICKET_ROLES
  end.

(** An event for which tickets may still be issued. *)
Definition eventOpen (v : Version) (ic : Host) (event : Event.t) : Prop :=
  match v with
  | index_ts => time ic ≤ Event.date event
  | part_000 => time ic < Event.date event
  end.

(** Two versions of a ticket that differ at most in [participantId] and
    [updatedAt]. *)
Definition sameTicket (t t' : Ticket.t) : Prop :=
  Ticket.id t' = Ticket.id t
  ∧ Ticket.role t' = Ticket.role t
  ∧ Ticket.price t' = Ticket.price t
  ∧ Ticket.eventId t' = Ticket.eventId t
  ∧ Ticket.organizerId t' = Ticket.organizerId t
  ∧ Ticket.createdAt t' = Ticket.createdAt t.

(** * Proofs *)

(** ** Proof support *)

Ltac unfold_methods :=
  unfold createUser, createEvent, createTickets, buyTicket, transferTicket,
    getMe, getEvents, getTicketsByEvent, getMyTickets, getMyTransactions,
    IndexTs.createUser, IndexTs.createEvent, IndexTs.createTickets,
    IndexTs.buyTicket, IndexTs.transferTicket, IndexTs.getMe, IndexTs.getEvents,
    IndexTs.getTicketsByEvent, IndexTs.getMyTickets, IndexTs.getMyTransactions,
    IndexTs.USER_ROLE, IndexTs.TICKET_ROLE,
    Part000.createUser, Part000.createEvent, Part000.createTickets,
    Part000.buyTicket, Part000.transferTicket, Part000.getMe, Part000.getEvents,
    Part000.getEventTickets, Part000.getMyTickets, Part000.getMyTransactions,
    Part000.isUserExists, Part000.isEventExists, Part000.isTicketExists,
    Part000.isUserOrganizer, Part000.isProductOwner, Part000.notPrincipal,
    Part000.discard,
    update, query, try_catch, dotSome, throw, mbind, mret, Method_bind, Method_ret,
    userStorage.containsKey, userStorage.get, userStorage.insert,
    eventStorage.containsKey, eventStorage.get, eventStorage.insert,
    eventStorage.values, ticketStorage.containsKey, ticketStorage.get,
    ticketStorage.insert, ticketStorage.values, transactionStorage.insert,
    transactionStorage.values, includes in *.

(** Turns the boolean tests of the methods into propositions. *)
Ltac bool_facts :=
  repeat match goal with
  | H : negb _ = true |- _ => apply negb_true_iff in H
  | H : negb _ = false |- _ => apply negb_false_iff in H
  | H : _ || _ = false |- _ => apply orb_false_iff in H; destruct H
  | H : _ || _ = true |- _ => apply orb_true_iff in H; destruct H
  | H : bool_decide _ = true |- _ => apply bool_decide_eq_true in H
  | H : bool_decide _ = false |- _ => apply bool_decide_eq_false in H
  | H : (_ =? _) = true |- _ => apply N.eqb_eq in H
  | H : (_ =? _) = false |- _ => apply N.eqb_neq in H
  | H : (_ <? _) = true |- _ => apply N.ltb_lt in H
  | H : (_ <? _) = false |- _ => apply N.ltb_ge in H
  | H : (_ <=? _) = true |- _ => apply N.leb_le in H
  | H : (_ <=? _) = false |- _ => apply N.leb_gt in H
  | H : ¬ is_Some _ |- _ => apply eq_None_not_Some in H
  | H : is_Some ?o, H' : ?o = None |- _ =>
      rewrite H' in H; destruct (is_Some_None H)
  | H : ?o = None, H' : ?o = Some _ |- _ => rewrite H in H'; discriminate H'
  end.

(** Closes a case whose hypotheses contradict one another. *)
Ltac absurd_case :=
  try congruence;
  try (exfalso;
       repeat match goal with
       | H : _ ∨ _ |- _ => destruct H
       | H : _ ∧ _ |- _ => destruct H
       | H : is_Some _ |- _ => destruct H
       | H : False |- _ => destruct H
       end; congruence).

Ltac method_cases :=
  unfold_methods; repeat (simplify_eq/=; case_match); simplify_eq/=; bool_facts.

Lemma createTickets_loop_spec ic payload n i newTickets st :
  createTickets_loop ic payload n i newTickets st
  = (Normal (newTickets ++ (issue ic payload <$> uuids ic i n))%list,
     setTickets st (insertAll ic payload (uuids ic i n) (tickets st))).
Proof.
  revert i newTickets st. induction n as [|n IH]; intros i newTickets st.
  - simpl. rewrite app_nil_r. by destruct st.
  - simpl. unfold mbind, Method_bind, ticketStorage.insert. rewrite IH.
    unfold uuids, insertAll. simpl. by rewrite <- app_assoc.
Qed.

Section Inversion.
Context (v : Version) (ic : Host) (st : Storage).

Lemma createUser_inv payload r st' :
  createUser v ic payload st = (r, st') →
  (∃ e, r = Err e ∧ st' = st) ∨
  (∃ newUser,
      r = Ok newUser ∧
      users st !! caller ic = None ∧
      User.id newUser = caller ic ∧
      User.role newUser ∈ USER_ROLES ∧
      st' = setUsers st (<[caller ic := newUser]> (users st))).
Proof.
  intros H. destruct v; method_cases; eauto; right; eexists; split_and!; eauto.
Qed.

Lemma createEvent_inv payload r st' :
  createEvent v ic payload st = (r, st') →
  (∃ e, r = Err e ∧ st' = st) ∨
  (∃ newEvent, r = Ok newEvent ∧
      st' = setEvents st (<[uuidv4 ic 0 := newEvent]> (events st))).
Proof.
  intros H. destruct v; method_cases; eauto.
Qed.

Lemma createTickets_inv quantity payload r st' :
  createTickets v ic quantity payload st = (r, st') →
  (∃ e, r = Err e ∧ st' = st) ∨
  (r = Ok (issue ic payload <$> uuids ic 0 (N.to_nat quantity)) ∧
   st' = setTickets st
           (insertAll ic payload (uuids ic 0 (N.to_nat quantity)) (tickets st)) ∧
   (v = part_000 → quantity ≠ 0 ∧ TicketPayload.price payload ≠ 0)).
Proof.
  intros H. destruct v; method_cases; eauto 10.
  all: rewrite createTickets_loop_spec in *; simplify_eq/=; eauto 10.
Qed.

Lemma buyTicket_inv payload r st' :
  buyTicket v ic payload st = (r, st') →
  (∃ e, r = Err e ∧ st' = st) ∨
  (∃ user ticket newTransaction,
      users st !! caller ic = Some user ∧ buyer v user ∧
      tickets st !! TransactionPayload.ticketId payload = Some ticket ∧
      Ticket.price ticket = TransactionPayload.pay payload ∧
      Ticket.participantId ticket = None ∧
      r = Ok newTransaction ∧
      Transaction.id newTransaction = uuidv4 ic 0 ∧
      st' = setTransactions
              (setTickets st
                 (<[Ticket.id ticket := withParticipant ticket (caller ic) (time ic)]>
                    (tickets st)))
              (<[uuidv4 ic 0 := newTransaction]> (transactions st))).
Proof.
  intros H. destruct v; method_cases; eauto.
  all: right; do 3 eexists; split_and!; eauto.
Qed.

Lemma transferTicket_inv ticketId participantId r st' :
  transferTicket v ic ticketId participantId st = (r, st') →
  (∃ e, r = Err e ∧ st' = st) ∨
  (∃ sender receiver ticket newTransaction,
      users st !! caller ic = Some sender ∧ buyer v sender ∧
      users st !! participantId = Some receiver ∧ buyer v receiver ∧
      caller ic ≠ participantId ∧
      tickets st !! ticketId = Some ticket ∧
      Ticket.participantId ticket = Some (caller ic) ∧
      r = Ok newTransaction ∧
      Transaction.id newTransaction = uuidv4 ic 0 ∧
      st' = setTransactions
              (setTickets st
                 (<[Ticket.id ticket := withParticipant ticket participantId (time ic)]>
                    (tickets st)))
              (<[uuidv4 ic 0 := newTransaction]> (transactions st))).
Proof.
  intros H. destruct v; method_cases; eauto.
  all: right; do 4 eexists; split_and!; eauto; congruence.
Qed.

End Inversion.

Lemma insertAll_lookup ic payload ids (m : gmap text Ticket.t) k :
  insertAll ic payload ids m !! k
  = if decide (k ∈ ids) then Some (issue ic payload k) else m !! k.
Proof.
  unfold insertAll. revert m.
  induction ids as [|id ids IH]; intros m; simpl; [done|].
  rewrite IH.
  destruct (decide (k ∈ ids)) as [Hin|Hin], (decide (k ∈ id :: ids)) as [Hin'|Hin'].
  - done.
  - destruct Hin'. by right.
  - apply elem_of_cons in Hin' as [->|?]; [apply lookup_insert_eq|done].
  - apply lookup_insert_ne. intros ->. destruct Hin'. by left.
Qed.

Lemma elem_of_uuids ic i n k :
  k ∈ uuids ic i n ↔ ∃ j, (i ≤ j < i + n)%nat ∧ k = uuidv4 ic j.
Proof.
  unfold uuids. rewrite list_elem_of_fmap. split.
  - intros (j & -> & Hj%elem_of_seq). eauto.
  - intros (j & Hj & ->). exists j. split; [done|]. by apply elem_of_seq.
Qed.

Lemma Inv_empty v : Inv v emptyStorage.
Proof. split; simpl; intros; simplify_map_eq. Qed.

Lemma buyer_participant v st user p :
  Inv v st → users st !! p = Some user → buyer v user →
  User.role user = "participant".
Proof.
  intros HI Hu Hb. destruct v; [done|].
  apply (inv_user_role _ _ HI) in Hu. unfold USER_ROLES in Hu. simpl in Hb.
  rewrite !elem_of_cons, elem_of_nil in Hu. by destruct Hu as [?|[?|[]]].
Qed.

Lemma Inv_sold v st ticket k p now :
  Inv v st →
  tickets st !! k = Some ticket →
  (∃ u, users st !! p = Some u ∧ User.role u = "participant") →
  ∀ txs,
  Inv v (setTransactions
           (setTickets st (<[Ticket.id ticket := withParticipant ticket p now]> (tickets st)))
           txs).
Proof.
  intros HI Ht Hp txs.
  pose proof (inv_ticket_key _ _ HI _ _ Ht) as Hk. rewrite Hk.
  split; simpl.
  - intros k' t'. rewrite lookup_insert. case_decide; intros; simplify_eq/=; [done|].
    by eapply inv_ticket_key.
  - intros k' t' p'. rewrite lookup_insert. case_decide; intros; simplify_eq/=; [done|].
    by eapply inv_holder.
  - by eapply inv_user_role.
  - intros Hv k' t'. rewrite lookup_insert. case_decide; intros; simplify_eq/=.
    + by eapply (inv_checked _ _ HI).
    + by eapply (inv_checked _ _ HI).
Qed.

Lemma Inv_step v ic call st :
  Inv v st → admissible v ic call st → Inv v (canister v ic call st).2.
Proof.
  intros HI Hadm. destruct call; simpl; try done.
  - destruct (createUser v ic payload st) as [r st'] eqn:E; simpl.
    apply createUser_inv in E as [(e & -> & ->)|(u & -> & Hnew & Hid & Hrole & ->)]; [done|].
    split; simpl.
    + by eapply inv_ticket_key.
    + intros k t p Ht Hp. destruct (inv_holder _ _ HI _ _ _ Ht Hp) as (u' & Hu' & Hr).
      exists u'. split; [|done]. rewrite lookup_insert_ne; [done|congruence].
    + intros p u'. rewrite lookup_insert. case_decide; intros; simplify_eq/=; [done|].
      by eapply inv_user_role.
    + by eapply inv_checked.
  - destruct (createEvent v ic payload st) as [r st'] eqn:E; simpl.
    apply createEvent_inv in E as [(e & -> & ->)|(u & -> & ->)]; [done|].
    by destruct HI.
  - destruct (createTickets v ic quantity payload st) as [r st'] eqn:E; simpl.
    apply createTickets_inv in E as [(e & -> & ->)|(-> & -> & Hchecked)]; [done|].
    destruct Hadm as [_ Hblank].
    split; simpl.
    + intros k t. rewrite insertAll_lookup. case_decide; intros; simplify_eq/=; [done|].
      by eapply inv_ticket_key.
    + intros k t p. rewrite insertAll_lookup. case_decide; intros; simplify_eq/=.
      by eapply inv_holder.
    + by eapply inv_user_role.
    + intros Hv k t. rewrite insertAll_lookup. case_decide as Hin; intros; simplify_eq/=.
      * apply elem_of_uuids in Hin as (j & Hj & ->).
        split; [by apply Hchecked|]. apply Hblank; [done|lia].
      * by eapply (inv_checked _ _ HI).
  - destruct (buyTicket v ic payload st) as [r st'] eqn:E; simpl.
    apply buyTicket_inv in E
      as [(e & -> & ->)|(u & t & tx & Hu & Hb & Ht & _ & _ & -> & _ & ->)]; [done|].
    eapply Inv_sold; eauto using buyer_participant.
  - destruct (transferTicket v ic ticketId participantId st) as [r st'] eqn:E; simpl.
    apply transferTicket_inv in E
      as [(e & -> & ->)|(s & u & t & tx & _ & _ & Hu & Hb & _ & Ht & _ & -> & _ & ->)]; [done|].
    eapply Inv_sold; eauto using buyer_participant.
Qed.

Lemma Inv_run v calls st :
  Inv v st → admissible_run v calls st → Inv v (run v calls st).
Proof.
  revert st. induction calls as [|[ic call] calls IH]; intros st HI Hadm; [done|].
  destruct Hadm as [Hadm Hrest]. simpl. apply IH; [|done]. by apply Inv_step.
Qed.

Lemma Inv_reachable v st : reachable v st → Inv v st.
Proof. intros (calls & Hadm & ->). apply Inv_run; [apply Inv_empty|done]. Qed.

Lemma ticket_step v ic call st k t :
  Inv v st → admissible v ic call st →
  tickets st !! k = Some t →
  ∃ t', tickets (canister v ic call st).2 !! k = Some t' ∧ moves ic call k t t'.
Proof.
  intros HI Hadm Hk.
  assert (moves ic call k t t) as Hsame by (by constructor).
  destruct call; simpl; eauto.
  - destruct (createUser v ic payload st) as [r st'] eqn:E; simpl.
    apply createUser_inv in E as [(e & -> & ->)|(u & -> & _ & _ & _ & ->)]; eauto.
  - destruct (createEvent v ic payload st) as [r st'] eqn:E; simpl.
    apply createEvent_inv in E as [(e & -> & ->)|(u & -> & ->)]; eauto.
  - destruct (createTickets v ic quantity payload st) as [r st'] eqn:E; simpl.
    apply createTickets_inv in E as [(e & -> & ->)|(-> & -> & _)]; eauto.
    simpl. rewrite insertAll_lookup. case_decide as Hin; eauto.
    apply elem_of_uuids in Hin as (j & Hj & ->).
    destruct Hadm as [Hfresh _]. rewrite Hfresh in Hk by lia. done.
  - destruct (buyTicket v ic payload st) as [r st'] eqn:E; simpl.
    apply buyTicket_inv in E
      as [(e & -> & ->)|(u & t0 & tx & _ & _ & Ht0 & _ & Hnone & -> & _ & ->)]; eauto.
    simpl. rewrite (inv_ticket_key _ _ HI _ _ Ht0).
    rewrite lookup_insert. case_decide; eauto. simplify_eq.
    eexists; split; [done|]. destruct payload as [pay k]. simpl in *.
    by eapply moves_sale.
  - destruct (transferTicket v ic ticketId participantId st) as [r st'] eqn:E; simpl.
    apply transferTicket_inv in E
      as [(e & -> & ->)|(s & u & t0 & tx & _ & _ & _ & _ & Hne & Ht0 & Hown & -> & _ & ->)]; eauto.
    simpl. rewrite (inv_ticket_key _ _ HI _ _ Ht0).
    rewrite lookup_insert. case_decide; eauto. simplify_eq.
    eexists; split; [done|]. by eapply moves_transfer.
Qed.

Lemma moves_keeps_holder ic call k t t' :
  moves ic call k t t' → is_Some (Ticket.participantId t) → is_Some (Ticket.participantId t').
Proof. destruct 1 as [->| |]; intros [p Hp]; eauto; congruence. Qed.

(** C1. Under any sequence of messages (whose generated ticket identifiers
    are fresh), a ticket of a reachable store stays in the store and one
    message moves its [participantId] in one of three ways only: not at all,
    from empty to the caller by that caller's [buyTicket], or from the caller
    to another identity by [transferTicket]; a [participantId] that is set is
    still set after any sequence of messages; and [buyTicket] returns [Ok]
    only for a ticket whose [participantId] is empty. *)
Theorem participantId_lifecycle (v : Version) (st : Storage) :
  Inv v st →
  (∀ ic call k t,
      admissible v ic call st → tickets st !! k = Some t →
      ∃ t', tickets (canister v ic call st).2 !! k = Some t'
            ∧ moves ic call k t t')
  ∧ (∀ calls k t,
      admissible_run v calls st → tickets st !! k = Some t →
      is_Some (Ticket.participantId t) →
      ∃ t', tickets (run v calls st) !! k = Some t'
            ∧ is_Some (Ticket.participantId t'))
  ∧ (∀ ic payload newTransaction,
      (buyTicket v ic payload st).1 = Ok newTransaction →
      ∃ t, tickets st !! TransactionPayload.ticketId payload = Some t
           ∧ Ticket.participantId t = None).
Proof.
  intros HI. split_and!.
  - intros. by apply ticket_step.
  - intros calls. revert st HI.
    induction calls as [|[ic call] calls IH]; intros st HI k t Hadm Hk Hp; [by eauto|].
    destruct Hadm as [Hadm Hrest].
    destruct (ticket_step v ic call st k t HI Hadm Hk) as (t' & Hk' & Hmoves).
    simpl. eapply IH; eauto using Inv_step, moves_keeps_holder.
  - intros ic payload tx Hok.
    destruct (buyTicket v ic payload st) as [r st'] eqn:E. simpl in Hok. subst r.
    apply buyTicket_inv in E
      as [(e & ? & _)|(u & t & tx' & _ & _ & Ht & _ & Hnone & _)]; [done|eauto].
Qed.

(** ** Errors and writes *)

(** C8. A message whose reply is an error leaves the four stores as they
    were: no method writes before it returns an error, and none throws after
    a write.  [buyTicket] and [transferTicket] in particular either fail and
    change nothing, or return the new transaction, in which case the ticket
    has been rewritten with its new holder and the transaction is in the
    transaction store. *)
Theorem error_leaves_storage_unchanged (v : Version) (ic : Host) (call : Call)
    (st : Storage) :
  (failed (canister v ic call st).1 = true → (canister v ic call st).2 = st)
  ∧ (∀ newTransaction,
      (canister v ic call st).1 = TransactionReply (Ok newTransaction) →
      ∃ ticket,
        tickets (canister v ic call st).2 !! Ticket.id ticket
          = Some (withParticipant ticket (Transaction.participantId newTransaction) (time ic))
        ∧ transactions (canister v ic call st).2 !! Transaction.id newTransaction
          = Some newTransaction).
Proof.
  split.
  - destruct call; simpl; try done.
    + destruct (createUser v ic payload st) as [r st'] eqn:E; simpl.
      apply createUser_inv in E as [(e & -> & ->)|(u & -> & _)]; done.
    + destruct (createEvent v ic payload st) as [r st'] eqn:E; simpl.
      apply createEvent_inv in E as [(e & -> & ->)|(u & -> & _)]; done.
    + destruct (createTickets v ic quantity payload st) as [r st'] eqn:E; simpl.
      apply createTickets_inv in E as [(e & -> & ->)|(-> & _)]; done.
    + destruct (buyTicket v ic payload st) as [r st'] eqn:E; simpl.
      apply buyTicket_inv in E
        as [(e & -> & ->)|(? & ? & ? & _ & _ & _ & _ & _ & -> & _)]; done.
    + destruct (transferTicket v ic ticketId participantId st) as [r st'] eqn:E; simpl.
      apply transferTicket_inv in E
        as [(e & -> & ->)|(? & ? & ? & ? & _ & _ & _ & _ & _ & _ & _ & -> & _)]; done.
  - intros tx. destruct call; simpl; try done.
    + destruct v; method_cases; intros; simplify_eq/=;
        eexists; (split; [apply lookup_insert_eq|]); simpl; apply lookup_insert_eq.
    + destruct v; method_cases; intros; simplify_eq/=;
        eexists; (split; [apply lookup_insert_eq|]); simpl; apply lookup_insert_eq.
Qed.

(** ** The sample run is a reachable store *)

Ltac small_index i H :=
  simpl in H;
  repeat first [ exfalso; lia | destruct i as [|i]; [vm_compute; reflexivity|] ].

Lemma sample_admissible v : admissible_run v sample_calls emptyStorage.
Proof.
  destruct v; unfold sample_calls; cbn [admissible_run admissible];
    split_and!; try exact I; try discriminate.
  all: try intros _; intros i Hi; small_index i Hi.
Qed.

Lemma Inv_sample v : Inv v (sample v).
Proof. apply Inv_run; [apply Inv_empty | apply sample_admissible]. Qed.

(** Witness of [participantId_lifecycle]: in the sample run of
    [src/index.ts], the ticket ["t0"] is unsold and ["Q"] buys it. *)
Lemma participantId_lifecycle_witness :
  Inv index_ts (sample index_ts)
  ∧ ∃ t', tickets
            (canister index_ts (host "Q" 15 "y")
               (BuyTicket (TransactionPayload.mk 100 "t0")) (sample index_ts)).2 !! "t0"
          = Some t'
          ∧ moves (host "Q" 15 "y") (BuyTicket (TransactionPayload.mk 100 "t0")) "t0"
              (issue (host "O" 12 "t") (TicketPayload.mk "regular" 100 "e0") "t0") t'.
Proof.
  split; [apply Inv_sample|].
  apply (proj1 (participantId_lifecycle index_ts (sample index_ts) (Inv_sample index_ts))).
  - exact I.
  - vm_compute. reflexivity.
Defined.

(** Witness of [error_leaves_storage_unchanged]: ["P"] tries to buy the
    ticket ["t1"] a second time. *)
Lemma error_leaves_storage_unchanged_witness :
  failed (canister part_000 (host "P" 15 "y")
            (BuyTicket (TransactionPayload.mk 100 "t1")) (sample part_000)).1 = true
  ∧ (canister part_000 (host "P" 15 "y")
       (BuyTicket (TransactionPayload.mk 100 "t1")) (sample part_000)).2 = sample part_000.
Proof.
  split; [vm_compute; reflexivity|].
  apply (proj1 (error_leaves_storage_unchanged part_000 (host "P" 15 "y")
                  (BuyTicket (TransactionPayload.mk 100 "t1")) (sample part_000))).
  vm_compute. reflexivity.
Defined.

(** ** [buyTicket] *)

Lemma buyTicket_Ok_iff v ic payload st :
  Inv v st →
  (∃ newTransaction, (buyTicket v ic payload st).1 = Ok newTransaction) ↔
  (∃ user ticket,
      users st !! caller ic = Some user ∧ User.role user = "participant" ∧
      tickets st !! TransactionPayload.ticketId payload = Some ticket ∧
      TransactionPayload.pay payload = Ticket.price ticket ∧
      Ticket.participantId ticket = None).
Proof.
  intros HI. split.
  - intros [tx Hok]. destruct (buyTicket v ic payload st) as [r st'] eqn:E.
    simpl in Hok. subst r.
    apply buyTicket_inv in E as [(e & ? & _)|(u & t & tx' & Hu & Hb & Ht & Hp & Hn & _)];
      [done|].
    exists u, t. split_and!; eauto using buyer_participant.
  - intros (user & ticket & Hu & Hr & Ht & Hp & Hn).
    destruct v.
    + method_cases; eauto; congruence.
    + pose proof (inv_checked _ _ HI eq_refl _ _ Ht) as [Hprice Hblank].
      method_cases; eauto; congruence.
Qed.

Lemma buyTicket_effect v ic payload st newTransaction :
  Inv v st →
  uuids_fresh ic 1 (transactions st) →
  (buyTicket v ic payload st).1 = Ok newTransaction →
  ∃ ticket,
    tickets st !! TransactionPayload.ticketId payload = Some ticket
    ∧ tickets (buyTicket v ic payload st).2
      = <[TransactionPayload.ticketId payload :=
            withParticipant ticket (caller ic) (time ic)]> (tickets st)
    ∧ tickets (buyTicket v ic payload st).2 !! TransactionPayload.ticketId payload
      = Some (Ticket.mk (Ticket.id ticket) (Ticket.role ticket) (Ticket.price ticket)
                (Ticket.eventId ticket) (Some (caller ic)) (Ticket.organizerId ticket)
                (Ticket.createdAt ticket) (time ic))
    ∧ transactions st !! Transaction.id newTransaction = None
    ∧ transactions (buyTicket v ic payload st).2
      = <[Transaction.id newTransaction := newTransaction]> (transactions st)
    ∧ Transaction.mode newTransaction = "buy"
    ∧ Transaction.senderId newTransaction = None
    ∧ Transaction.participantId newTransaction = caller ic
    ∧ Transaction.pay newTransaction = TransactionPayload.pay payload
    ∧ Transaction.ticketId newTransaction = TransactionPayload.ticketId payload
    ∧ Transaction.organizerId newTransaction = Ticket.organizerId ticket.
Proof.
  intros HI Hfresh Hok. specialize (Hfresh 0%nat (Nat.lt_0_1)).
  destruct v; method_cases.
  all: eexists; split; [done|]; simpl.
  all: erewrite (inv_ticket_key _ _ HI) by done; split_and!; try done.
  all: rewrite lookup_insert_eq; unfold withParticipant.
  all: by erewrite (inv_ticket_key _ _ HI) by done.
Qed.

Lemma buyTicket_errors v ic payload st :
  Inv v st →
  (users st !! caller ic = None →
     ∃ message, (buyTicket v ic payload st).1 = Err (Unauthorized message))
  ∧ (∀ user,
       users st !! caller ic = Some user → User.role user ≠ "participant" →
       ∃ message, (buyTicket v ic payload st).1 = Err (Forbidden message))
  ∧ (∀ user,
       users st !! caller ic = Some user → User.role user = "participant" →
       tickets st !! TransactionPayload.ticketId payload = None →
       (v = index_ts
        ∨ (TransactionPayload.pay payload ≠ 0
           ∧ Part000.isStringEmpty (TransactionPayload.ticketId payload) = false)) →
       ∃ message, (buyTicket v ic payload st).1 = Err (NotFound message))
  ∧ (∀ user,
       users st !! caller ic = Some user → User.role user = "participant" →
       v = part_000 →
       TransactionPayload.pay payload = 0
       ∨ Part000.isStringEmpty (TransactionPayload.ticketId payload) = true →
       (buyTicket v ic payload st).1 = Err (BadRequest "Pay and ticket ID cannot be empty"))
  ∧ (∀ user ticket,
       users st !! caller ic = Some user → User.role user = "participant" →
       tickets st !! TransactionPayload.ticketId payload = Some ticket →
       TransactionPayload.pay payload ≠ Ticket.price ticket →
       ∃ message, (buyTicket v ic payload st).1 = Err (BadRequest message))
  ∧ (∀ user ticket,
       users st !! caller ic = Some user → User.role user = "participant" →
       tickets st !! TransactionPayload.ticketId payload = Some ticket →
       TransactionPayload.pay payload = Ticket.price ticket →
       is_Some (Ticket.participantId ticket) →
       (buyTicket v ic payload st).1 = Err (BadRequest "Ticket has already been sold")).
Proof.
  intros HI. split_and!.
  - intros Hu. destruct v; method_cases; eauto.
  - intros user Hu Hr.
    pose proof (inv_user_role _ _ HI _ _ Hu) as Hrole.
    unfold USER_ROLES in Hrole. rewrite !elem_of_cons, elem_of_nil in Hrole.
    destruct v; method_cases; eauto; absurd_case.
  - intros user Hu Hr Ht Hv.
    destruct v; method_cases; eauto; absurd_case.
  - intros user Hu Hr -> Hempty.
    method_cases; eauto; absurd_case.
  - intros user ticket Hu Hr Ht Hp.
    destruct v; method_cases; eauto; congruence.
  - intros user ticket Hu Hr Ht Hp Hsold.
    destruct v; [|pose proof (inv_checked _ _ HI eq_refl _ _ Ht) as [Hprice Hblank]];
      method_cases; eauto; absurd_case.
Qed.

(** C2, as amended. On a reachable store and with a fresh transaction
    identifier, [buyTicket] returns [Ok] exactly when the caller is a
    registered user whose role is participant, the ticket exists, [pay] is the
    ticket's price and the ticket's [participantId] is empty.  It then
    rewrites that ticket with [participantId] set to the caller and
    [updatedAt] set to the time of the call, and adds one transaction: mode
    buy, no sender, the caller as participant, [pay] as paid.  Otherwise it
    fails: [Unauthorized] for an unknown caller, [Forbidden] for another
    role, [NotFound] for a missing ticket, [BadRequest] for a wrong pay and
    [BadRequest] for a ticket already sold; the second source answers a zero
    pay or a blank ticket identifier with [BadRequest] before it looks the
    ticket up, so that there [NotFound] needs a nonzero pay and an identifier
    that is not blank (one that [trim] does not empty). *)
Theorem buyTicket_correct (v : Version) (ic : Host) (payload : TransactionPayload.t)
    (st : Storage) :
  Inv v st →
  uuids_fresh ic 1 (transactions st) →
  ((∃ newTransaction, (buyTicket v ic payload st).1 = Ok newTransaction) ↔
   (∃ user ticket,
       users st !! caller ic = Some user ∧ User.role user = "participant" ∧
       tickets st !! TransactionPayload.ticketId payload = Some ticket ∧
       TransactionPayload.pay payload = Ticket.price ticket ∧
       Ticket.participantId ticket = None))
  ∧ (∀ newTransaction,
       (buyTicket v ic payload st).1 = Ok newTransaction →
       ∃ ticket,
         tickets st !! TransactionPayload.ticketId payload = Some ticket
         ∧ tickets (buyTicket v ic payload st).2
           = <[TransactionPayload.ticketId payload :=
                 withParticipant ticket (caller ic) (time ic)]> (tickets st)
         ∧ tickets (buyTicket v ic payload st).2 !! TransactionPayload.ticketId payload
           = Some (Ticket.mk (Ticket.id ticket) (Ticket.role ticket) (Ticket.price ticket)
                     (Ticket.eventId ticket) (Some (caller ic))
                     (Ticket.organizerId ticket) (Ticket.createdAt ticket) (time ic))
         ∧ transactions st !! Transaction.id newTransaction = None
         ∧ transactions (buyTicket v ic payload st).2
           = <[Transaction.id newTransaction := newTransaction]> (transactions st)
         ∧ Transaction.mode newTransaction = "buy"
         ∧ Transaction.senderId newTransaction = None
         ∧ Transaction.participantId newTransaction = caller ic
         ∧ Transaction.pay newTransaction = TransactionPayload.pay payload
         ∧ Transaction.ticketId newTransaction = TransactionPayload.ticketId payload
         ∧ Transaction.organizerId newTransaction = Ticket.organizerId ticket)
  ∧ (users st !! caller ic = None →
       ∃ message, (buyTicket v ic payload st).1 = Err (Unauthorized message))
  ∧ (∀ user,
       users st !! caller ic = Some user → User.role user ≠ "participant" →
       ∃ message, (buyTicket v ic payload st).1 = Err (Forbidden message))
  ∧ (∀ user,
       users st !! caller ic = Some user → User.role user = "participant" →
       tickets st !! TransactionPayload.ticketId payload = None →
       (v = index_ts
        ∨ (TransactionPayload.pay payload ≠ 0
           ∧ Part000.isStringEmpty (TransactionPayload.ticketId payload) = false)) →
       ∃ message, (buyTicket v ic payload st).1 = Err (NotFound message))
  ∧ (∀ user,
       users st !! caller ic = Some user → User.role user = "participant" →
       v = part_000 →
       TransactionPayload.pay payload = 0
       ∨ Part000.isStringEmpty (TransactionPayload.ticketId payload) = true →
       (buyTicket v ic payload st).1 = Err (BadRequest "Pay and ticket ID cannot be empty"))
  ∧ (∀ user ticket,
       users st !! caller ic = Some user → User.role user = "participant" →
       tickets st !! TransactionPayload.ticketId payload = Some ticket →
       TransactionPayload.pay payload ≠ Ticket.price ticket →
       ∃ message, (buyTicket v ic payload st).1 = Err (BadRequest message))
  ∧ (∀ user ticket,
       users st !! caller ic = Some user → User.role user = "participant" →
       tickets st !! TransactionPayload.ticketId payload = Some ticket →
       TransactionPayload.pay payload = Ticket.price ticket →
       is_Some (Ticket.participantId ticket) →
       (buyTicket v ic payload st).1 = Err (BadRequest "Ticket has already been sold")).
Proof.
  intros HI Hfresh. split; [by apply buyTicket_Ok_iff|].
  split; [intros tx Hok; by apply buyTicket_effect|].
  by apply buyTicket_errors.
Qed.

(** Witness of [buyTicket_correct]: in the sample run of the second source,
    ["Q"] buys the unsold ticket ["t0"] at its price. *)
Lemma buyTicket_correct_witness :
  Inv part_000 (sample part_000)
  ∧ uuids_fresh (host "Q" 15 "y") 1 (transactions (sample part_000))
  ∧ ∃ newTransaction,
      (buyTicket part_000 (host "Q" 15 "y") (TransactionPayload.mk 100 "t0")
         (sample part_000)).1 = Ok newTransaction.
Proof.
  assert (uuids_fresh (host "Q" 15 "y") 1 (transactions (sample part_000)))
    as Hfresh by (intros i Hi; small_index i Hi).
  split; [apply Inv_sample|]. split; [exact Hfresh|].
  apply (proj1 (buyTicket_correct part_000 (host "Q" 15 "y")
                  (TransactionPayload.mk 100 "t0") (sample part_000)
                  (Inv_sample part_000) Hfresh)).
  eexists _, _. split_and!; vm_compute; reflexivity.
Defined.

(** C2 as stated fails in the second source: in the sample run ["P"] is a
    registered participant and there is no ticket ["zz"] and no ticket [" "],
    yet a [buyTicket] of ["zz"] with a zero pay, and a [buyTicket] of [" "]
    with the price of the existing tickets, are answered with [BadRequest],
    not with [NotFound].  [src/index.ts] answers both with [NotFound]. *)
Lemma buyTicket_missing_ticket_not_NotFound :
  Inv part_000 (sample part_000)
  ∧ (∃ user, users (sample part_000) !! "P" = Some user
             ∧ User.role user = "participant")
  ∧ tickets (sample part_000) !! "zz" = None
  ∧ tickets (sample part_000) !! " " = None
  ∧ (buyTicket part_000 (host "P" 15 "y") (TransactionPayload.mk 0 "zz")
       (sample part_000)).1
    = Err (BadRequest "Pay and ticket ID cannot be empty")
  ∧ (buyTicket part_000 (host "P" 15 "y") (TransactionPayload.mk 100 " ")
       (sample part_000)).1
    = Err (BadRequest "Pay and ticket ID cannot be empty")
  ∧ (∀ message,
       (buyTicket part_000 (host "P" 15 "y") (TransactionPayload.mk 0 "zz")
          (sample part_000)).1
       ≠ Err (NotFound message))
  ∧ (buyTicket index_ts (host "P" 15 "y") (TransactionPayload.mk 0 "zz")
       (sample index_ts)).1
    = Err (NotFound "Ticket with id zz not found")
  ∧ (buyTicket index_ts (host "P" 15 "y") (TransactionPayload.mk 100 " ")
       (sample index_ts)).1
    = Err (NotFound "Ticket with id   not found").
Proof.
  split; [apply Inv_sample|].
  split; [eexists; split; vm_compute; reflexivity|].
  split_and!; try (vm_compute; reflexivity).
  intros message. vm_compute. discriminate.
Qed.

(** The pre-check of the second source reads blankness as JavaScript does:
    a ticket identifier made of a no-break space (U+00A0, bytes C2 A0) is
    blank, and a [buyTicket] for it is answered with [BadRequest]. *)
Example buyTicket_no_break_space :
  Part000.isStringEmpty (String (ascii_of_N 0xC2) (String (ascii_of_N 0xA0) "")) = true
  ∧ (buyTicket part_000 (host "P" 15 "y")
       (TransactionPayload.mk 100 (String (ascii_of_N 0xC2) (String (ascii_of_N 0xA0) "")))
       (sample part_000)).1
    = Err (BadRequest "Pay and ticket ID cannot be empty").
Proof. split; vm_compute; reflexivity. Qed.

(** ** [transferTicket] *)

Lemma transferTicket_Ok_iff v ic ticketId participantId st :
  Inv v st →
  (∃ newTransaction,
      (transferTicket v ic ticketId participantId st).1 = Ok newTransaction) ↔
  (∃ sender receiver ticket,
      users st !! caller ic = Some sender ∧
      users st !! participantId = Some receiver ∧
      User.role receiver = "participant" ∧
      caller ic ≠ participantId ∧
      tickets st !! ticketId = Some ticket ∧
      Ticket.participantId ticket = Some (caller ic)).
Proof.
  intros HI. split.
  - intros [tx Hok].
    destruct (transferTicket v ic ticketId participantId st) as [r st'] eqn:E.
    simpl in Hok. subst r.
    apply transferTicket_inv in E
      as [(e & ? & _)|(s & u & t & tx' & Hs & _ & Hu & Hb & Hne & Ht & Hown & _)]; [done|].
    exists s, u, t. split_and!; eauto using buyer_participant.
  - intros (sender & receiver & ticket & Hs & Hu & Hr & Hne & Ht & Hown).
    destruct (inv_holder _ _ HI _ _ _ Ht Hown) as (s' & Hs' & Hrs). simplify_eq.
    destruct v.
    + method_cases; eauto; absurd_case.
    + pose proof (inv_checked _ _ HI eq_refl _ _ Ht) as [Hprice Hblank].
      method_cases; eauto; absurd_case.
Qed.

Lemma transferTicket_effect v ic ticketId participantId st newTransaction :
  Inv v st →
  uuids_fresh ic 1 (transactions st) →
  (transferTicket v ic ticketId participantId st).1 = Ok newTransaction →
  ∃ ticket,
    tickets st !! ticketId = Some ticket
    ∧ tickets (transferTicket v ic ticketId participantId st).2
      = <[ticketId := withParticipant ticket participantId (time ic)]> (tickets st)
    ∧ transactions st !! Transaction.id newTransaction = None
    ∧ transactions (transferTicket v ic ticketId participantId st).2
      = <[Transaction.id newTransaction := newTransaction]> (transactions st)
    ∧ Transaction.mode newTransaction = "transfer"
    ∧ Transaction.senderId newTransaction = Some (caller ic)
    ∧ Transaction.participantId newTransaction = participantId
    ∧ Transaction.pay newTransaction = 0
    ∧ Transaction.ticketId newTransaction = ticketId
    ∧ Transaction.organizerId newTransaction = Ticket.organizerId ticket.
Proof.
  intros HI Hfresh Hok. specialize (Hfresh 0%nat (Nat.lt_0_1)).
  destruct v; method_cases.
  all: eexists; split; [done|]; simpl.
  all: erewrite (inv_ticket_key _ _ HI) by done; split_and!; done.
Qed.

Lemma transferTicket_errors v ic ticketId st :
  (∀ sender,
      users st !! caller ic = Some sender → User.role sender = "participant" →
      ∃ message,
        (transferTicket v ic ticketId (caller ic) st).1 = Err (BadRequest message))
  ∧ (∀ participantId sender receiver ticket,
      users st !! caller ic = Some sender →
      users st !! participantId = Some receiver →
      User.role receiver = "participant" →
      caller ic ≠ participantId →
      tickets st !! ticketId = Some ticket →
      Part000.isStringEmpty ticketId = false →
      Ticket.participantId ticket ≠ Some (caller ic) →
      v = index_ts ∨ is_Some (Ticket.participantId ticket) →
      ∃ message,
        (transferTicket v ic ticketId participantId st).1 = Err (Forbidden message))
  ∧ (∀ participantId sender receiver ticket,
      v = part_000 →
      users st !! caller ic = Some sender → User.role sender = "participant" →
      users st !! participantId = Some receiver →
      User.role receiver = "participant" →
      caller ic ≠ participantId →
      tickets st !! ticketId = Some ticket →
      Part000.isStringEmpty ticketId = false →
      Ticket.participantId ticket = None →
      transferTicket v ic ticketId participantId st = (Err (InternalError TypeError), st)).
Proof.
  split_and!.
  - intros sender Hs Hr. destruct v; method_cases; eauto; absurd_case.
  - intros to sender receiver ticket Hs Hu Hr Hne Ht Hblank Hown Hv.
    destruct v; method_cases; eauto; absurd_case.
  - intros to sender receiver ticket -> Hs Hrs Hu Hr Hne Ht Hblank Hnone.
    method_cases; eauto; absurd_case.
Qed.

(** C3, the failing case. In the sample run, ["P"] and ["Q"] are registered
    participants and the ticket ["t0"] exists and is unsold, so that ["P"]
    is not its holder: [src/index.ts] refuses the transfer with [Forbidden],
    the second source with [InternalError] (the owner test reads [toText] on
    [undefined], and the [catch] reports the exception). *)
Theorem transferTicket_unsold_InternalError :
  tickets (sample part_000) !! "t0"
    = Some (issue (host "O" 12 "t") (TicketPayload.mk "regular" 100 "e0") "t0")
  ∧ transferTicket part_000 (host "P" 15 "y") "t0" "Q" (sample part_000)
    = (Err (InternalError TypeError), sample part_000)
  ∧ transferTicket index_ts (host "P" 15 "y") "t0" "Q" (sample index_ts)
    = (Err (Forbidden "Only ticket owner can transfer it"), sample index_ts).
Proof. split_and!; vm_compute; reflexivity. Qed.

(** ** [createTickets] *)

Lemma insertAll_size ic payload ids (m : gmap text Ticket.t) :
  NoDup ids → (∀ id, id ∈ ids → m !! id = None) →
  size (insertAll ic payload ids m) = (size m + length ids)%nat.
Proof.
  unfold insertAll. intros Hnodup. revert m.
  induction Hnodup as [|id ids Hnotin Hnodup IH]; intros m Hfresh; simpl.
  - lia.
  - rewrite IH.
    + rewrite map_size_insert_None by (apply Hfresh; left). lia.
    + intros id' Hin. rewrite lookup_insert_ne by (intros ->; done).
      apply Hfresh. by right.
Qed.

Lemma uuids_NoDup ic n : uuids_distinct ic n → NoDup (uuids ic 0 n).
Proof.
  intros Hdistinct. unfold uuids. apply NoDup_fmap_2_strong; [|apply NoDup_seq].
  intros i j Hi Hj. apply elem_of_seq in Hi, Hj. apply Hdistinct; lia.
Qed.

(** C4. Provided the identifiers generated for the batch are fresh and
    pairwise distinct: when [createTickets] returns [Ok], it returns
    [quantity] tickets, the ticket store has grown by exactly [quantity]
    entries, the new tickets have pairwise distinct identifiers, each has the
    [eventId], [role] and [price] of the payload and an empty
    [participantId], each is stored under its identifier, which was not in
    use, and every other entry of the ticket store is as before; when it
    returns an error, the store is unchanged. *)
Theorem createTickets_all_or_nothing (v : Version) (ic : Host) (quantity : nat32)
    (payload : TicketPayload.t) (st : Storage) :
  uuids_fresh ic (N.to_nat quantity) (tickets st) →
  uuids_distinct ic (N.to_nat quantity) →
  (∀ newTickets,
      (createTickets v ic quantity payload st).1 = Ok newTickets →
      length newTickets = N.to_nat quantity
      ∧ size (tickets (createTickets v ic quantity payload st).2)
        = (size (tickets st) + N.to_nat quantity)%nat
      ∧ NoDup (Ticket.id <$> newTickets)
      ∧ (∀ t, t ∈ newTickets →
           Ticket.eventId t = TicketPayload.eventId payload
           ∧ Ticket.role t = TicketPayload.role payload
           ∧ Ticket.price t = TicketPayload.price payload
           ∧ Ticket.participantId t = None
           ∧ tickets st !! Ticket.id t = None
           ∧ tickets (createTickets v ic quantity payload st).2 !! Ticket.id t = Some t)
      ∧ (∀ k, k ∉ Ticket.id <$> newTickets →
           tickets (createTickets v ic quantity payload st).2 !! k
           = tickets st !! k))
  ∧ (∀ e,
      (createTickets v ic quantity payload st).1 = Err e →
      (createTickets v ic quantity payload st).2 = st).
Proof.
  intros Hfresh Hdistinct.
  destruct (createTickets v ic quantity payload st) as [r st'] eqn:E. simpl.
  apply createTickets_inv in E as [(e & -> & ->)|(-> & -> & _)]; [done|].
  split; [|done]. intros ? [= <-]. simpl.
  assert (Ticket.id <$> (issue ic payload <$> uuids ic 0 (N.to_nat quantity))
          = uuids ic 0 (N.to_nat quantity)) as Hids.
  { rewrite <- list_fmap_compose. rewrite <- (list_fmap_id (uuids _ _ _)) at 2.
    by apply list_fmap_ext. }
  assert (∀ id, id ∈ uuids ic 0 (N.to_nat quantity) → tickets st !! id = None)
    as Hnew.
  { intros id (j & Hj & ->)%elem_of_uuids. apply Hfresh. lia. }
  rewrite Hids. split_and!.
  - unfold uuids. by rewrite !length_fmap, length_seq.
  - rewrite insertAll_size by eauto using uuids_NoDup.
    unfold uuids. by rewrite length_fmap, length_seq.
  - by apply uuids_NoDup.
  - intros t (id & -> & Hin)%list_elem_of_fmap. simpl. split_and!; eauto.
    rewrite insertAll_lookup. by rewrite decide_True.
  - intros k Hk. rewrite insertAll_lookup. by rewrite decide_False.
Qed.

Ltac small_indices i j Hi Hj H :=
  simpl in Hi, Hj;
  repeat first [ exfalso; lia | destruct i as [|i] ];
  repeat first [ exfalso; lia | destruct j as [|j] ];
  first [ reflexivity | vm_compute in H; discriminate H ].

(** Witness of [createTickets_all_or_nothing]: the organizer of the sample
    run issues two more tickets. *)
Lemma createTickets_all_or_nothing_witness :
  uuids_fresh (host "O" 15 "n") (N.to_nat 2) (tickets (sample index_ts))
  ∧ uuids_distinct (host "O" 15 "n") (N.to_nat 2)
  ∧ size (tickets
            (createTickets index_ts (host "O" 15 "n") 2
               (TicketPayload.mk "vip" 250 "e0") (sample index_ts)).2)
    = (size (tickets (sample index_ts)) + N.to_nat 2)%nat.
Proof.
  assert (uuids_fresh (host "O" 15 "n") (N.to_nat 2) (tickets (sample index_ts)))
    as Hfresh by (intros i Hi; small_index i Hi).
  assert (uuids_distinct (host "O" 15 "n") (N.to_nat 2))
    as Hdistinct by (intros i j Hi Hj H; small_indices i j Hi Hj H).
  split; [exact Hfresh|]. split; [exact Hdistinct|].
  destruct (proj1 (createTickets_all_or_nothing index_ts (host "O" 15 "n") 2
                     (TicketPayload.mk "vip" 250 "e0") (sample index_ts)
                     Hfresh Hdistinct)
                  [issue (host "O" 15 "n") (TicketPayload.mk "vip" 250 "e0") "n0";
                   issue (host "O" 15 "n") (TicketPayload.mk "vip" 250 "e0") "n1"])
    as (_ & Hsize & _); [vm_compute; reflexivity|exact Hsize].
Defined.

(** ** Validation of [createTickets], [createEvent] and [createUser] *)

(** What the second source checks before it issues tickets. *)
Lemma createTickets_validates_part_000 ic quantity payload st :
  (quantity = 0 → ∃ e, createTickets part_000 ic quantity payload st = (Err e, st))
  ∧ (∀ user,
       users st !! caller ic = Some user → User.role user = "organizer" →
       quantity = 0 ∨ TicketPayload.price payload = 0
       ∨ TicketPayload.role payload ∉ TICKET_ROLES →
       ∃ message,
         createTickets part_000 ic quantity payload st = (Err (BadRequest message), st)).
Proof.
  split.
  - intros ->. method_cases; eauto; absurd_case.
  - intros user Hu Hr Hbad. method_cases; eauto; absurd_case.
    all: destruct Hbad as [?|[?|?]]; try lia; done.
Qed.

(** The role check is in both sources. *)
Lemma createTickets_validates_role v ic quantity payload st user :
  users st !! caller ic = Some user → User.role user = "organizer" →
  TicketPayload.role payload ∉ TICKET_ROLES →
  ∃ message,
    createTickets v ic quantity payload st = (Err (BadRequest message), st).
Proof.
  intros Hu Hr Hbad.
  destruct (createTickets_validates_part_000 ic quantity payload st) as [_ H2].
  destruct v; [|by eauto]. method_cases; eauto; absurd_case.
Qed.

(** C5, the failing case. In the sample run the organizer ["O"] owns the
    event ["e0"], which has not started: [src/index.ts] answers a request for
    zero tickets with [Ok] and an empty list, and a request for a ticket at
    price zero with [Ok] and that ticket; the second source refuses both with
    [BadRequest]. *)
Theorem createTickets_zero_quantity_Ok :
  createTickets index_ts (host "O" 15 "n") 0 (TicketPayload.mk "regular" 100 "e0")
    (sample index_ts)
  = (Ok [], sample index_ts)
  ∧ (createTickets index_ts (host "O" 15 "n") 1 (TicketPayload.mk "regular" 0 "e0")
       (sample index_ts)).1
    = Ok [issue (host "O" 15 "n") (TicketPayload.mk "regular" 0 "e0") "n0"]
  ∧ createTickets part_000 (host "O" 15 "n") 0 (TicketPayload.mk "regular" 100 "e0")
      (sample part_000)
    = (Err (BadRequest "Quantity, role, price and event ID cannot be empty"),
       sample part_000)
  ∧ createTickets part_000 (host "O" 15 "n") 1 (TicketPayload.mk "regular" 0 "e0")
      (sample part_000)
    = (Err (BadRequest "Quantity, role, price and event ID cannot be empty"),
       sample part_000).
Proof. split_and!; vm_compute; reflexivity. Qed.

(** What the second source checks before it stores an event. *)
Lemma createEvent_validates_part_000 ic payload st :
  (EventPayload.date payload ≤ time ic →
     ∃ e, createEvent part_000 ic payload st = (Err e, st))
  ∧ (∀ user,
       users st !! caller ic = Some user → User.role user = "organizer" →
       Part000.isStringEmpty (EventPayload.name payload) = true
       ∨ Part000.isStringEmpty (EventPayload.location payload) = true
       ∨ EventPayload.date payload ≤ time ic →
       ∃ message, createEvent part_000 ic payload st = (Err (BadRequest message), st)).
Proof.
  split.
  - intros Hdate. method_cases; eauto; absurd_case; lia.
  - intros user Hu Hr Hbad. method_cases; eauto; absurd_case.
    destruct Hbad as [?|[?|?]]; try lia; congruence.
Qed.

(** C6, the failing case. The organizer of the sample run creates, at time
    20, an event dated 20, and an event with an empty name and an empty
    location: [src/index.ts] stores both, the second source refuses both with
    [BadRequest]. *)
Theorem createEvent_now_Ok :
  (createEvent index_ts (host "O" 20 "f") (EventPayload.mk "Late" 20 "Hall")
     (sample index_ts)).1
  = Ok (Event.mk "f0" "Late" 20 "Hall" "O" 20 20)
  ∧ events
      (createEvent index_ts (host "O" 20 "f") (EventPayload.mk "Late" 20 "Hall")
         (sample index_ts)).2 !! "f0"
    = Some (Event.mk "f0" "Late" 20 "Hall" "O" 20 20)
  ∧ (createEvent index_ts (host "O" 20 "f") (EventPayload.mk "" 30 "")
       (sample index_ts)).1
    = Ok (Event.mk "f0" "" 30 "" "O" 20 20)
  ∧ events
      (createEvent index_ts (host "O" 20 "f") (EventPayload.mk "" 30 "")
         (sample index_ts)).2 !! "f0"
    = Some (Event.mk "f0" "" 30 "" "O" 20 20)
  ∧ createEvent part_000 (host "O" 20 "f") (EventPayload.mk "Late" 20 "Hall")
      (sample part_000)
    = (Err (BadRequest "Date must be a date in the future"), sample part_000)
  ∧ createEvent part_000 (host "O" 20 "f") (EventPayload.mk "" 30 "")
      (sample part_000)
    = (Err (BadRequest "Name, date and location cannot be empty"), sample part_000).
Proof. split_and!; vm_compute; reflexivity. Qed.

(** What both sources check before they store a user. *)
Lemma createUser_validates v ic payload st :
  (is_Some (users st !! caller ic) →
     ∃ message, createUser v ic payload st = (Err (BadRequest message), st))
  ∧ (UserPayload.role payload ∉ USER_ROLES →
     ∃ message, createUser v ic payload st = (Err (BadRequest message), st)).
Proof.
  split.
  - intros [user Hu]. destruct v; method_cases; eauto; absurd_case.
  - intros Hbad. destruct v; method_cases; eauto; absurd_case.
Qed.

(** C7, the failing case. An unregistered caller ["Z"] registers as
    participant with an empty name: both sources store the user.  The second
    source builds the error for an empty name and drops it. *)
Theorem createUser_empty_name_Ok (v : Version) :
  users (sample v) !! "Z" = None
  ∧ (createUser v (host "Z" 15 "u") (UserPayload.mk "" "participant") (sample v)).1
    = Ok (User.mk "Z" "" "participant" 15 15)
  ∧ users
      (createUser v (host "Z" 15 "u") (UserPayload.mk "" "participant") (sample v)).2 !! "Z"
    = Some (User.mk "Z" "" "participant" 15 15).
Proof. destruct v; split_and!; vm_compute; reflexivity. Qed.

(** ** [getMyTickets] *)

Lemma elem_of_mapValues {V : Type} (m : gmap string V) (x : V) :
  x ∈ mapValues m ↔ ∃ k, m !! k = Some x.
Proof.
  unfold mapValues. rewrite list_elem_of_fmap. split.
  - intros ([k y] & -> & Hin). exists k. by apply elem_of_map_to_list.
  - intros [k Hk]. exists (k, x). split; [done|]. by apply elem_of_map_to_list.
Qed.

Lemma elem_of_filter_values {V : Type} (m : gmap string V) (f : V → bool) (x : V) :
  x ∈ List.filter f (mapValues m) ↔ (∃ k, m !! k = Some x) ∧ f x = true.
Proof.
  rewrite list_elem_of_In, filter_In, <- list_elem_of_In, elem_of_mapValues. done.
Qed.

(** C9. For a registered caller whose role is organizer, [getMyTickets]
    returns the tickets of the store whose [organizerId] is the caller; for a
    caller whose role is participant, the tickets whose [participantId] is the
    caller. *)
Theorem getMyTickets_by_role (v : Version) (ic : Host) (st : Storage) (user : User.t) :
  users st !! caller ic = Some user →
  (User.role user = "organizer" →
     getMyTickets v ic st
     = Ok (List.filter (λ ticket, bool_decide (Ticket.organizerId ticket = caller ic))
                       (mapValues (tickets st)))
     ∧ ∀ mine, getMyTickets v ic st = Ok mine →
         ∀ t, t ∈ mine ↔
              (∃ k, tickets st !! k = Some t) ∧ Ticket.organizerId t = caller ic)
  ∧ (User.role user = "participant" →
     getMyTickets v ic st
     = Ok (List.filter (λ ticket, bool_decide (Ticket.participantId ticket = Some (caller ic)))
                       (mapValues (tickets st)))
     ∧ ∀ mine, getMyTickets v ic st = Ok mine →
         ∀ t, t ∈ mine ↔
              (∃ k, tickets st !! k = Some t)
              ∧ Ticket.participantId t = Some (caller ic)).
Proof.
  intros Hu.
  assert (getMyTickets v ic st
          = Ok (List.filter
                  (λ ticket,
                     if bool_decide (User.role user = "organizer")
                     then bool_decide (Ticket.organizerId ticket = caller ic)
                     else bool_decide (Ticket.participantId ticket = Some (caller ic)))
                  (mapValues (tickets st)))) as ->.
  { destruct v; method_cases; eauto; absurd_case. }
  split; intros Hr; rewrite Hr.
  - split; [done|]. intros ? [= <-] t.
    rewrite elem_of_filter_values, bool_decide_eq_true. done.
  - split; [done|]. intros ? [= <-] t.
    rewrite elem_of_filter_values, bool_decide_eq_true. done.
Qed.

(** Witness of [getMyTickets_by_role]: the participant ["P"] of the sample
    run holds the ticket ["t1"] and nothing else. *)
Lemma getMyTickets_by_role_witness :
  users (sample index_ts) !! caller (host "P" 15 "y")
    = Some (User.mk "P" "Pat" "participant" 13 13)
  ∧ getMyTickets index_ts (host "P" 15 "y") (sample index_ts)
    = Ok [withParticipant
            (issue (host "O" 12 "t") (TicketPayload.mk "regular" 100 "e0") "t1") "P" 14].
Proof.
  assert (users (sample index_ts) !! caller (host "P" 15 "y")
          = Some (User.mk "P" "Pat" "participant" 13 13)) as Hu
    by (vm_compute; reflexivity).
  split; [exact Hu|].
  destruct (proj2 (getMyTickets_by_role index_ts (host "P" 15 "y") (sample index_ts)
                     (User.mk "P" "Pat" "participant" 13 13) Hu) eq_refl) as [-> _].
  vm_compute. reflexivity.
Defined.

(** ** What a sale or a transfer leaves alone *)

(** C10. On a reachable store, a [buyTicket] or [transferTicket] that
    returns [Ok] leaves the users and the events as they were, leaves every
    ticket other than the one named in the call as it was, and keeps the
    [id], [role], [price], [eventId], [organizerId] and [createdAt] of that
    ticket. *)
Theorem sale_and_transfer_frame (v : Version) (ic : Host) (call : Call) (st : Storage)
    (newTransaction : Transaction.t) :
  Inv v st →
  (canister v ic call st).1 = TransactionReply (Ok newTransaction) →
  users (canister v ic call st).2 = users st
  ∧ events (canister v ic call st).2 = events st
  ∧ ∃ ticketId ticket ticket',
      target call = Some ticketId
      ∧ tickets st !! ticketId = Some ticket
      ∧ tickets (canister v ic call st).2 !! ticketId = Some ticket'
      ∧ Ticket.id ticket' = Ticket.id ticket
      ∧ Ticket.role ticket' = Ticket.role ticket
      ∧ Ticket.price ticket' = Ticket.price ticket
      ∧ Ticket.eventId ticket' = Ticket.eventId ticket
      ∧ Ticket.organizerId ticket' = Ticket.organizerId ticket
      ∧ Ticket.createdAt ticket' = Ticket.createdAt ticket
      ∧ ∀ k, k ≠ ticketId →
          tickets (canister v ic call st).2 !! k = tickets st !! k.
Proof.
  intros HI Hok. destruct call; simpl in *; try done.
  - destruct (buyTicket v ic payload st) as [r st'] eqn:E. simpl in *.
    apply buyTicket_inv in E
      as [(e & -> & ->)|(u & t & tx & _ & _ & Ht & _ & _ & -> & _ & ->)]; [done|].
    simpl. rewrite (inv_ticket_key _ _ HI _ _ Ht). split_and!; try done.
    eexists _, t, _. rewrite lookup_insert_eq. split_and!; try done.
    intros k Hk. by rewrite lookup_insert_ne.
  - destruct (transferTicket v ic ticketId participantId st) as [r st'] eqn:E. simpl in *.
    apply transferTicket_inv in E
      as [(e & -> & ->)|(s & u & t & tx & _ & _ & _ & _ & _ & Ht & _ & -> & _ & ->)];
      [done|].
    simpl. rewrite (inv_ticket_key _ _ HI _ _ Ht). split_and!; try done.
    eexists _, t, _. rewrite lookup_insert_eq. split_and!; try done.
    intros k Hk. by rewrite lookup_insert_ne.
Qed.

(** Witness of [sale_and_transfer_frame]: in the sample run, ["P"] transfers
    the ticket ["t1"] to ["Q"]; the unsold ticket ["t0"] is as before. *)
Lemma sale_and_transfer_frame_witness :
  Inv index_ts (sample index_ts)
  ∧ (canister index_ts (host "P" 15 "y") (TransferTicket "t1" "Q") (sample index_ts)).1
    = TransactionReply (Ok (Transaction.mk "y0" "transfer" 0 "t1" (Some "P") "Q" "O" 15 15))
  ∧ users
      (canister index_ts (host "P" 15 "y") (TransferTicket "t1" "Q") (sample index_ts)).2
    = users (sample index_ts).
Proof.
  assert ((canister index_ts (host "P" 15 "y") (TransferTicket "t1" "Q")
             (sample index_ts)).1
          = TransactionReply
              (Ok (Transaction.mk "y0" "transfer" 0 "t1" (Some "P") "Q" "O" 15 15)))
    as Hok by (vm_compute; reflexivity).
  split; [apply Inv_sample|]. split; [exact Hok|].
  exact (proj1 (sale_and_transfer_frame index_ts (host "P" 15 "y")
                  (TransferTicket "t1" "Q") (sample index_ts) _
                  (Inv_sample index_ts) Hok)).
Defined.

(** * Further properties *)

(** * Further properties of the canister *)

(** ** The user registry *)

Lemma role_not_blank role :
  role ∈ USER_ROLES ∨ role ∈ TICKET_ROLES → Part000.isStringEmpty role = false.
Proof.
  unfold USER_ROLES, TICKET_ROLES. rewrite !elem_of_cons, !elem_of_nil.
  intros [[->|[->|[]]]|[->|[->|[->|[]]]]]; vm_compute; reflexivity.
Qed.

(** X1. [createUser] returns [Ok] exactly when the caller has no user record
    and the role of the payload is organizer or participant (the name is not
    looked at).  The user it returns has the caller as [id], the name and
    role of the payload and both timestamps at the time of the call; it is
    stored under the caller and no other user record changes.  In every
    other case the reply is a [BadRequest] and nothing is stored. *)
Theorem createUser_reply (v : Version) (ic : Host) (payload : UserPayload.t)
    (st : Storage) :
  let newUser :=
    User.mk (caller ic) (UserPayload.name payload) (UserPayload.role payload)
      (time ic) (time ic) in
  (users st !! caller ic = None → UserPayload.role payload ∈ USER_ROLES →
     createUser v ic payload st
     = (Ok newUser, setUsers st (<[caller ic := newUser]> (users st))))
  ∧ (is_Some (users st !! caller ic) ∨ UserPayload.role payload ∉ USER_ROLES →
     ∃ message, createUser v ic payload st = (Err (BadRequest message), st)).
Proof.
  split.
  - intros Hnew Hrole. destruct v; method_cases; eauto; absurd_case.
  - intros [Hold|Hrole]; destruct v; method_cases; eauto; absurd_case.
Qed.

Lemma users_step v ic call st p u :
  users st !! p = Some u → users (canister v ic call st).2 !! p = Some u.
Proof.
  intros Hp. destruct call; simpl; try done.
  - destruct (createUser v ic payload st) as [r st'] eqn:E; simpl.
    apply createUser_inv in E as [(e & -> & ->)|(u' & -> & Hnew & _ & _ & ->)]; [done|].
    simpl. rewrite lookup_insert_ne; [done|congruence].
  - destruct (createEvent v ic payload st) as [r st'] eqn:E; simpl.
    apply createEvent_inv in E as [(e & -> & ->)|(u' & -> & ->)]; done.
  - destruct (createTickets v ic quantity payload st) as [r st'] eqn:E; simpl.
    apply createTickets_inv in E as [(e & -> & ->)|(-> & -> & _)]; done.
  - destruct (buyTicket v ic payload st) as [r st'] eqn:E; simpl.
    apply buyTicket_inv in E
      as [(e & -> & ->)|(? & ? & ? & _ & _ & _ & _ & _ & -> & _ & ->)]; done.
  - destruct (transferTicket v ic ticketId participantId st) as [r st'] eqn:E; simpl.
    apply transferTicket_inv in E
      as [(e & -> & ->)|(? & ? & ? & ? & _ & _ & _ & _ & _ & _ & _ & -> & _ & ->)]; done.
Qed.

Lemma users_run v calls st p u :
  users st !! p = Some u → users (run v calls st) !! p = Some u.
Proof.
  revert st. induction calls as [|[ic call] calls IH]; intros st Hp; [done|].
  simpl. apply IH. by apply users_step.
Qed.

(** X2. A user record, once stored, is never changed and never removed: after
    any sequence of calls, by any callers, the store holds the same record
    under the same identity (same name, same role, same timestamps). *)
Theorem users_never_change (v : Version) (calls : list (Host * Call)) (st : Storage)
    (p : Principal) (u : User.t) :
  users st !! p = Some u → users (run v calls st) !! p = Some u.
Proof. apply users_run. Qed.

(** Witness of [users_never_change]: the organizer of the sample run, after
    two more calls. *)
Lemma users_never_change_witness :
  users (sample index_ts) !! "O" = Some (User.mk "O" "Olga" "organizer" 10 10)
  ∧ users (run index_ts
             [(host "O" 15 "u", CreateUser (UserPayload.mk "Otto" "participant"));
              (host "P" 16 "y", TransferTicket "t1" "Q")]
             (sample index_ts)) !! "O"
    = Some (User.mk "O" "Olga" "organizer" 10 10).
Proof.
  assert (users (sample index_ts) !! "O" = Some (User.mk "O" "Olga" "organizer" 10 10))
    as H by (vm_compute; reflexivity).
  split; [exact H|]. exact (users_never_change index_ts _ _ _ _ H).
Defined.

(** X3. [getMe] answers [Unauthorized] exactly when the caller has no user
    record, and otherwise returns the caller's record; in particular, once
    [createUser] has returned a user, every later [getMe] of that caller,
    after any sequence of calls, returns that same user. *)
Theorem getMe_after_createUser (v : Version) (ic : Host) (st : Storage) :
  (users st !! caller ic = None ↔
     getMe v ic st = Err (Unauthorized "Create an account first"))
  ∧ (∀ user, users st !! caller ic = Some user ↔ getMe v ic st = Ok user)
  ∧ (∀ payload newUser calls ic',
       (createUser v ic payload st).1 = Ok newUser →
       caller ic' = caller ic →
       getMe v ic' (run v calls (createUser v ic payload st).2) = Ok newUser).
Proof.
  assert (∀ ic st user, users st !! caller ic = Some user → getMe v ic st = Ok user)
    as Hget.
  { intros ic0 st0 user Hu. destruct v; method_cases; eauto; absurd_case. }
  split_and!.
  - split; intros H; destruct v; method_cases; eauto; absurd_case.
  - intros user. split; [apply Hget|].
    intros H; destruct v; method_cases; eauto; absurd_case.
  - intros payload newUser calls ic' Hok Hsame.
    apply Hget. apply users_run. rewrite Hsame.
    destruct (createUser v ic payload st) as [r st'] eqn:E. simpl in *. subst r.
    apply createUser_inv in E as [(e & ? & _)|(u' & [= <-] & _ & _ & _ & ->)]; [done|].
    simpl. apply lookup_insert_eq.
Qed.

(** Witness of [getMe_after_createUser]: ["Z"] registers after the sample
    run and asks who they are two calls later. *)
Lemma getMe_after_createUser_witness :
  (createUser part_000 (host "Z" 15 "u") (UserPayload.mk "Zoe" "participant")
     (sample part_000)).1
  = Ok (User.mk "Z" "Zoe" "participant" 15 15)
  ∧ getMe part_000 (host "Z" 99 "w")
      (run part_000
         [(host "Z" 16 "y", BuyTicket (TransactionPayload.mk 100 "t0"));
          (host "Z" 17 "z", TransferTicket "t0" "Q")]
         (createUser part_000 (host "Z" 15 "u") (UserPayload.mk "Zoe" "participant")
            (sample part_000)).2)
    = Ok (User.mk "Z" "Zoe" "participant" 15 15).
Proof.
  assert ((createUser part_000 (host "Z" 15 "u") (UserPayload.mk "Zoe" "participant")
             (sample part_000)).1
          = Ok (User.mk "Z" "Zoe" "participant" 15 15)) as H
    by (vm_compute; reflexivity).
  split; [exact H|].
  exact (proj2 (proj2 (getMe_after_createUser part_000 (host "Z" 15 "u")
                         (sample part_000)))
           (UserPayload.mk "Zoe" "participant") _ _ (host "Z" 99 "w") H eq_refl).
Defined.

(** Witness of [createUser_reply]: ["Z"] is not registered in the sample
    run. *)
Lemma createUser_reply_witness :
  users (sample index_ts) !! caller (host "Z" 15 "u") = None
  ∧ createUser index_ts (host "Z" 15 "u") (UserPayload.mk "Zoe" "organizer")
      (sample index_ts)
    = (Ok (User.mk "Z" "Zoe" "organizer" 15 15),
       setUsers (sample index_ts)
         (<["Z" := User.mk "Z" "Zoe" "organizer" 15 15]> (users (sample index_ts)))).
Proof.
  assert (users (sample index_ts) !! caller (host "Z" 15 "u") = None) as H
    by (vm_compute; reflexivity).
  split; [exact H|].
  apply (proj1 (createUser_reply index_ts (host "Z" 15 "u")
                  (UserPayload.mk "Zoe" "organizer") (sample index_ts)) H).
  simpl. unfold USER_ROLES. left.
Defined.

(** ** [createEvent] and [createTickets] *)

(** X4. The reply of [createEvent], case by case: [Unauthorized] for a caller
    without user record, [Forbidden] for a registered caller who is not an
    organizer, [BadRequest] for an organizer whose payload the source does
    not accept; in these cases nothing is stored.  Otherwise the event is
    returned and stored under the generated identifier, with the caller as
    [organizerId], the fields of the payload and both timestamps at the time
    of the call. *)
Theorem createEvent_reply (v : Version) (ic : Host) (payload : EventPayload.t)
    (st : Storage) :
  let newEvent :=
    Event.mk (uuidv4 ic 0) (EventPayload.name payload) (EventPayload.date payload)
      (EventPayload.location payload) (caller ic) (time ic) (time ic) in
  (users st !! caller ic = None →
     createEvent v ic payload st = (Err (Unauthorized "Create an account first"), st))
  ∧ (∀ user,
       users st !! caller ic = Some user → User.role user ≠ "organizer" →
       createEvent v ic payload st
       = (Err (Forbidden "Only organizers can create events"), st))
  ∧ (∀ user,
       users st !! caller ic = Some user → User.role user = "organizer" →
       ¬ eventAccepted v ic payload →
       ∃ message, createEvent v ic payload st = (Err (BadRequest message), st))
  ∧ (∀ user,
       users st !! caller ic = Some user → User.role user = "organizer" →
       eventAccepted v ic payload →
       createEvent v ic payload st
       = (Ok newEvent, setEvents st (<[uuidv4 ic 0 := newEvent]> (events st)))).
Proof.
  split_and!.
  - intros Hu. destruct v; method_cases; eauto; absurd_case.
  - intros user Hu Hr. destruct v; method_cases; eauto; absurd_case.
  - intros user Hu Hr Hbad. destruct v; simpl in Hbad; method_cases; eauto; absurd_case.
    all: destruct Hbad; split_and?; try done; lia.
  - intros user Hu Hr Hok. destruct v; simpl in Hok; method_cases; eauto; absurd_case.
    all: lia.
Qed.

(** Witness of [createEvent_reply]: the organizer of the sample run creates
    a second event. *)
Lemma createEvent_reply_witness :
  users (sample part_000) !! caller (host "O" 20 "f")
  = Some (User.mk "O" "Olga" "organizer" 10 10)
  ∧ eventAccepted part_000 (host "O" 20 "f") (EventPayload.mk "Fair" 30 "Park")
  ∧ (createEvent part_000 (host "O" 20 "f") (EventPayload.mk "Fair" 30 "Park")
       (sample part_000)).1
    = Ok (Event.mk "f0" "Fair" 30 "Park" "O" 20 20).
Proof.
  assert (users (sample part_000) !! caller (host "O" 20 "f")
          = Some (User.mk "O" "Olga" "organizer" 10 10)) as Hu
    by (vm_compute; reflexivity).
  assert (eventAccepted part_000 (host "O" 20 "f") (EventPayload.mk "Fair" 30 "Park"))
    as Hok by (simpl; split_and!; [vm_compute; reflexivity..|lia]).
  split; [exact Hu|]. split; [exact Hok|].
  rewrite (proj2 (proj2 (proj2 (createEvent_reply part_000 (host "O" 20 "f")
                                  (EventPayload.mk "Fair" 30 "Park") (sample part_000))))
             _ Hu eq_refl Hok).
  reflexivity.
Defined.

(** X5. The reply of [createTickets], in the order of the checks:
    [Unauthorized] for a caller without user record; [Forbidden] for a
    registered caller who is not an organizer; [BadRequest] for arguments the
    source does not accept; [NotFound] for a missing event; [Forbidden] for
    an event of another organizer; [BadRequest] for an event that is not open
    any more; in these cases nothing is stored.  Otherwise the tickets built
    from the generated identifiers are returned and stored. *)
Theorem createTickets_reply (v : Version) (ic : Host) (quantity : nat32)
    (payload : TicketPayload.t) (st : Storage) :
  (users st !! caller ic = None →
     createTickets v ic quantity payload st
     = (Err (Unauthorized "Create an account first"), st))
  ∧ (∀ user,
       users st !! caller ic = Some user → User.role user ≠ "organizer" →
       createTickets v ic quantity payload st
       = (Err (Forbidden "Only organizers can create tickets"), st))
  ∧ (∀ user,
       users st !! caller ic = Some user → User.role user = "organizer" →
       ¬ ticketsAccepted v quantity payload →
       ∃ message,
         createTickets v ic quantity payload st = (Err (BadRequest message), st))
  ∧ (∀ user,
       users st !! caller ic = Some user → User.role user = "organizer" →
       ticketsAccepted v quantity payload →
       events st !! TicketPayload.eventId payload = None →
       createTickets v ic quantity payload st
       = (Err (NotFound
                ("Event with id " +:+ TicketPayload.eventId payload +:+ " not found")),
          st))
  ∧ (∀ user event,
       users st !! caller ic = Some user → User.role user = "organizer" →
       ticketsAccepted v quantity payload →
       events st !! TicketPayload.eventId payload = Some event →
       Event.organizerId event ≠ caller ic →
       createTickets v ic quantity payload st
       = (Err (Forbidden "Only event owner can create tickets"), st))
  ∧ (∀ user event,
       users st !! caller ic = Some user → User.role user = "organizer" →
       ticketsAccepted v quantity payload →
       events st !! TicketPayload.eventId payload = Some event →
       Event.organizerId event = caller ic →
       ¬ eventOpen v ic event →
       createTickets v ic quantity payload st
       = (Err (BadRequest "Event already started"), st))
  ∧ (∀ user event,
       users st !! caller ic = Some user → User.role user = "organizer" →
       ticketsAccepted v quantity payload →
       events st !! TicketPayload.eventId payload = Some event →
       Event.organizerId event = caller ic →
       eventOpen v ic event →
       createTickets v ic quantity payload st
       = (Ok (issue ic payload <$> uuids ic 0 (N.to_nat quantity)),
          setTickets st
            (insertAll ic payload (uuids ic 0 (N.to_nat quantity)) (tickets st)))).
Proof.
  assert (∀ role, role ∈ TICKET_ROLES → Part000.isStringEmpty role = false) as Hrole
    by (intros; apply role_not_blank; by right).
  split_and!.
  - intros Hu. destruct v; method_cases; eauto; absurd_case.
  - intros user Hu Hr. destruct v; method_cases; eauto; absurd_case.
  - intros user Hu Hr Hbad. destruct v; simpl in Hbad; method_cases; eauto; absurd_case.
    all: try lia.
    all: destruct Hbad; split_and?; try done; lia.
  - intros user Hu Hr Hok Hev. destruct v; simpl in Hok;
      [|destruct Hok as (Hq & Hp & He & Hr'); pose proof (Hrole _ Hr') as Hnb];
      method_cases; eauto; absurd_case; lia.
  - intros user event Hu Hr Hok Hev Hown. destruct v; simpl in Hok;
      [|destruct Hok as (Hq & Hp & He & Hr'); pose proof (Hrole _ Hr') as Hnb];
      method_cases; eauto; absurd_case; lia.
  - intros user event Hu Hr Hok Hev Hown Hopen. destruct v; simpl in Hok, Hopen;
      [|destruct Hok as (Hq & Hp & He & Hr'); pose proof (Hrole _ Hr') as Hnb];
      method_cases; eauto; absurd_case; lia.
  - intros user event Hu Hr Hok Hev Hown Hopen. destruct v; simpl in Hok, Hopen;
      [|destruct Hok as (Hq & Hp & He & Hr'); pose proof (Hrole _ Hr') as Hnb];
      method_cases; eauto; absurd_case; try lia.
    all: rewrite createTickets_loop_spec in *; by simplify_eq/=.
Qed.

(** Witness of [createTickets_reply]: a participant of the sample run asks
    for tickets. *)
Lemma createTickets_reply_witness :
  users (sample index_ts) !! caller (host "P" 15 "n")
  = Some (User.mk "P" "Pat" "participant" 13 13)
  ∧ createTickets index_ts (host "P" 15 "n") 2 (TicketPayload.mk "vip" 250 "e0")
      (sample index_ts)
    = (Err (Forbidden "Only organizers can create tickets"), sample index_ts).
Proof.
  assert (users (sample index_ts) !! caller (host "P" 15 "n")
          = Some (User.mk "P" "Pat" "participant" 13 13)) as Hu
    by (vm_compute; reflexivity).
  split; [exact Hu|].
  apply (proj1 (proj2 (createTickets_reply index_ts (host "P" 15 "n") 2
                         (TicketPayload.mk "vip" 250 "e0") (sample index_ts)))
           _ Hu).
  simpl. discriminate.
Defined.

(** ** [transferTicket] *)

(** X6. On a reachable store and with a fresh transaction identifier,
    [transferTicket] returns [Ok] exactly when the caller is registered, the
    receiver is a registered participant other than the caller, the ticket
    exists and the caller is its holder.  It then rewrites that ticket with
    the receiver as [participantId] and the time of the call as [updatedAt],
    and adds one transaction: mode transfer, pay 0, the caller as sender, the
    receiver as participant, the organizer of the ticket.  A registered
    participant who names themself as receiver gets [BadRequest], and a
    caller who is not the holder of a ticket that has one gets [Forbidden]. *)
Theorem transferTicket_correct (v : Version) (ic : Host) (ticketId : text)
    (participantId : Principal) (st : Storage) :
  Inv v st →
  uuids_fresh ic 1 (transactions st) →
  ((∃ newTransaction,
       (transferTicket v ic ticketId participantId st).1 = Ok newTransaction) ↔
   (∃ sender receiver ticket,
       users st !! caller ic = Some sender ∧
       users st !! participantId = Some receiver ∧
       User.role receiver = "participant" ∧
       caller ic ≠ participantId ∧
       tickets st !! ticketId = Some ticket ∧
       Ticket.participantId ticket = Some (caller ic)))
  ∧ (∀ newTransaction,
       (transferTicket v ic ticketId participantId st).1 = Ok newTransaction →
       ∃ ticket,
         tickets st !! ticketId = Some ticket
         ∧ tickets (transferTicket v ic ticketId participantId st).2
           = <[ticketId := withParticipant ticket participantId (time ic)]> (tickets st)
         ∧ transactions st !! Transaction.id newTransaction = None
         ∧ transactions (transferTicket v ic ticketId participantId st).2
           = <[Transaction.id newTransaction := newTransaction]> (transactions st)
         ∧ Transaction.mode newTransaction = "transfer"
         ∧ Transaction.senderId newTransaction = Some (caller ic)
         ∧ Transaction.participantId newTransaction = participantId
         ∧ Transaction.pay newTransaction = 0
         ∧ Transaction.ticketId newTransaction = ticketId
         ∧ Transaction.organizerId newTransaction = Ticket.organizerId ticket)
  ∧ (∀ sender,
       users st !! caller ic = Some sender → User.role sender = "participant" →
       ∃ message,
         transferTicket v ic ticketId (caller ic) st = (Err (BadRequest message), st))
  ∧ (∀ sender receiver ticket holder,
       users st !! caller ic = Some sender →
       users st !! participantId = Some receiver →
       User.role receiver = "participant" →
       caller ic ≠ participantId →
       tickets st !! ticketId = Some ticket →
       Ticket.participantId ticket = Some holder → holder ≠ caller ic →
       ∃ message,
         transferTicket v ic ticketId participantId st = (Err (Forbidden message), st)).
Proof.
  intros HI Hfresh. split; [by apply transferTicket_Ok_iff|].
  split; [intros tx Hok; by apply transferTicket_effect|].
  split.
  - intros sender Hs Hr. destruct v; method_cases; eauto; absurd_case.
  - intros sender receiver ticket holder Hs Hu Hr Hne Ht Hh Hnot.
    destruct v; [|pose proof (inv_checked _ _ HI eq_refl _ _ Ht) as [_ Hblank]];
      method_cases; eauto; absurd_case.
Qed.

(** Witness of [transferTicket_correct]: in the sample run ["P"] holds the
    ticket ["t1"] and transfers it to ["Q"]. *)
Lemma transferTicket_correct_witness :
  Inv index_ts (sample index_ts)
  ∧ uuids_fresh (host "P" 15 "y") 1 (transactions (sample index_ts))
  ∧ ∃ newTransaction,
      (transferTicket index_ts (host "P" 15 "y") "t1" "Q" (sample index_ts)).1
      = Ok newTransaction.
Proof.
  assert (uuids_fresh (host "P" 15 "y") 1 (transactions (sample index_ts)))
    as Hfresh by (intros i Hi; small_index i Hi).
  split; [apply Inv_sample|]. split; [exact Hfresh|].
  apply (proj1 (transferTicket_correct index_ts (host "P" 15 "y") "t1" "Q"
                  (sample index_ts) (Inv_sample index_ts) Hfresh)).
  eexists _, _, _. split_and!; try (vm_compute; reflexivity). discriminate.
Defined.

(** ** Tickets over time *)

Lemma sameTicket_refl t : sameTicket t t.
Proof. by repeat split. Qed.

Lemma sameTicket_trans t1 t2 t3 : sameTicket t1 t2 → sameTicket t2 t3 → sameTicket t1 t3.
Proof. unfold sameTicket. intros ? ?. destruct_and!. split_and!; congruence. Qed.

Lemma sameTicket_withParticipant t p now : sameTicket t (withParticipant t p now).
Proof. by repeat split. Qed.

Lemma ticket_static_step v ic call st k t :
  Inv v st → admissible v ic call st →
  tickets st !! k = Some t →
  ∃ t', tickets (canister v ic call st).2 !! k = Some t' ∧ sameTicket t t'.
Proof.
  intros HI Hadm Hk.
  pose proof (sameTicket_refl t) as Hsame.
  destruct call; simpl; eauto.
  - destruct (createUser v ic payload st) as [r st'] eqn:E; simpl.
    apply createUser_inv in E as [(e & -> & ->)|(u & -> & _ & _ & _ & ->)]; eauto.
  - destruct (createEvent v ic payload st) as [r st'] eqn:E; simpl.
    apply createEvent_inv in E as [(e & -> & ->)|(u & -> & ->)]; eauto.
  - destruct (createTickets v ic quantity payload st) as [r st'] eqn:E; simpl.
    apply createTickets_inv in E as [(e & -> & ->)|(-> & -> & _)]; eauto.
    simpl. rewrite insertAll_lookup. case_decide as Hin; eauto.
    apply elem_of_uuids in Hin as (j & Hj & ->).
    destruct Hadm as [Hfresh _]. rewrite Hfresh in Hk by lia. done.
  - destruct (buyTicket v ic payload st) as [r st'] eqn:E; simpl.
    apply buyTicket_inv in E
      as [(e & -> & ->)|(u & t0 & tx & _ & _ & Ht0 & _ & _ & -> & _ & ->)]; eauto.
    simpl. rewrite (inv_ticket_key _ _ HI _ _ Ht0).
    rewrite lookup_insert. case_decide; eauto. simplify_eq.
    eauto using sameTicket_withParticipant.
  - destruct (transferTicket v ic ticketId participantId st) as [r st'] eqn:E; simpl.
    apply transferTicket_inv in E
      as [(e & -> & ->)|(s & u & t0 & tx & _ & _ & _ & _ & _ & Ht0 & _ & -> & _ & ->)]; eauto.
    simpl. rewrite (inv_ticket_key _ _ HI _ _ Ht0).
    rewrite lookup_insert. case_decide; eauto. simplify_eq.
    eauto using sameTicket_withParticipant.
Qed.

Lemma ticket_run v calls st k t :
  Inv v st → admissible_run v calls st →
  tickets st !! k = Some t →
  ∃ t', tickets (run v calls st) !! k = Some t'
        ∧ sameTicket t t'
        ∧ (is_Some (Ticket.participantId t) → is_Some (Ticket.participantId t')).
Proof.
  revert st t. induction calls as [|[ic call] calls IH]; intros st t HI Hadm Hk.
  { eauto using sameTicket_refl. }
  destruct Hadm as [Hadm Hrest].
  destruct (ticket_static_step v ic call st k t HI Hadm Hk) as (t1 & Hk1 & Hsame1).
  destruct (ticket_step v ic call st k t HI Hadm Hk) as (t1' & Hk1' & Hmoves).
  rewrite Hk1 in Hk1'. simplify_eq.
  destruct (IH _ t1' (Inv_step _ _ _ _ HI Hadm) Hrest Hk1) as (t2 & Hk2 & Hsame2 & Hh).
  exists t2. simpl. split_and!; eauto using sameTicket_trans, moves_keeps_holder.
Qed.

(** X7. A ticket never leaves the store and never changes its [id], [role],
    [price], [eventId], [organizerId] or [createdAt]: on a reachable store,
    after any sequence of calls whose generated ticket identifiers are fresh,
    the ticket is still stored under its key and differs from what it was in
    [participantId] and [updatedAt] at most. *)
Theorem tickets_keep_their_fields (v : Version) (calls : list (Host * Call))
    (st : Storage) (k : text) (t : Ticket.t) :
  Inv v st → admissible_run v calls st →
  tickets st !! k = Some t →
  ∃ t', tickets (run v calls st) !! k = Some t' ∧ sameTicket t t'.
Proof.
  intros HI Hadm Hk. destruct (ticket_run v calls st k t HI Hadm Hk) as (t' & ? & ? & _).
  eauto.
Qed.

(** X8. A ticket is sold at most once: once [buyTicket] has returned [Ok]
    for a ticket, no later [buyTicket] of that ticket returns [Ok], by any
    caller, with any pay, after any sequence of calls whose generated ticket
    identifiers are fresh; a registered participant who offers the same pay
    is told that the ticket has already been sold. *)
Theorem ticket_sold_at_most_once (v : Version) (ic : Host)
    (payload : TransactionPayload.t) (st : Storage) (newTransaction : Transaction.t)
    (calls : list (Host * Call)) (ic' : Host) (payload' : TransactionPayload.t) :
  Inv v st →
  (buyTicket v ic payload st).1 = Ok newTransaction →
  admissible_run v calls (buyTicket v ic payload st).2 →
  TransactionPayload.ticketId payload' = TransactionPayload.ticketId payload →
  (∀ newTransaction',
      (buyTicket v ic' payload' (run v calls (buyTicket v ic payload st).2)).1
      ≠ Ok newTransaction')
  ∧ (∀ user,
      users (run v calls (buyTicket v ic payload st).2) !! caller ic' = Some user →
      User.role user = "participant" →
      TransactionPayload.pay payload' = TransactionPayload.pay payload →
      (buyTicket v ic' payload' (run v calls (buyTicket v ic payload st).2)).1
      = Err (BadRequest "Ticket has already been sold")).
Proof.
  intros HI Hok Hadm Hsame.
  pose proof (Inv_step v ic (BuyTicket payload) st HI I) as HI1. simpl in HI1.
  destruct (buyTicket v ic payload st) as [r st1] eqn:E. simpl in *. subst r.
  apply buyTicket_inv in E
    as [(e & ? & _)|(u & t & tx & _ & _ & Ht & Hprice & _ & _ & _ & ->)]; [done|].
  pose proof (inv_ticket_key _ _ HI _ _ Ht) as Hid.
  set (st1 := setTransactions _ _) in *.
  assert (tickets st1 !! TransactionPayload.ticketId payload
          = Some (withParticipant t (caller ic) (time ic))) as Ht1.
  { subst st1. simpl. rewrite Hid. apply lookup_insert_eq. }
  destruct (ticket_run v calls st1 _ _ HI1 Hadm Ht1) as (t2 & Ht2 & Hsame2 & Hheld).
  specialize (Hheld (ltac:(by eexists))).
  pose proof (Inv_run v calls st1 HI1 Hadm) as HI2.
  rewrite <- Hsame in Ht2.
  split.
  - intros tx' Hok'.
    assert (∃ tx0, (buyTicket v ic' payload' (run v calls st1)).1 = Ok tx0) as Hex
      by eauto.
    apply (buyTicket_Ok_iff v ic' payload' _ HI2) in Hex
      as (u' & t' & _ & _ & Ht' & _ & Hnone).
    rewrite Ht2 in Ht'. simplify_eq. rewrite Hnone in Hheld. by destruct Hheld.
  - intros user Hu Hr Hpay.
    destruct (buyTicket_errors v ic' payload' _ HI2) as (_ & _ & _ & _ & _ & Hsold).
    eapply Hsold; eauto.
    destruct Hsame2 as (_ & _ & Hp & _). rewrite Hp. simpl. congruence.
Qed.

(** Witness of [tickets_keep_their_fields]: the ticket ["t1"] of the sample
    run, after a transfer. *)
Lemma tickets_keep_their_fields_witness :
  Inv index_ts (sample index_ts)
  ∧ admissible_run index_ts [(host "P" 15 "y", TransferTicket "t1" "Q")] (sample index_ts)
  ∧ tickets (sample index_ts) !! "t1"
    = Some (withParticipant
              (issue (host "O" 12 "t") (TicketPayload.mk "regular" 100 "e0") "t1") "P" 14)
  ∧ ∃ t', tickets (run index_ts [(host "P" 15 "y", TransferTicket "t1" "Q")]
                     (sample index_ts)) !! "t1" = Some t'
          ∧ Ticket.price t' = 100.
Proof.
  assert (admissible_run index_ts [(host "P" 15 "y", TransferTicket "t1" "Q")]
            (sample index_ts)) as Hadm by (simpl; tauto).
  assert (tickets (sample index_ts) !! "t1"
          = Some (withParticipant
                    (issue (host "O" 12 "t") (TicketPayload.mk "regular" 100 "e0") "t1")
                    "P" 14)) as Hk by (vm_compute; reflexivity).
  split; [apply Inv_sample|]. split; [exact Hadm|]. split; [exact Hk|].
  destruct (tickets_keep_their_fields index_ts _ _ _ _ (Inv_sample index_ts) Hadm Hk)
    as (t' & Hk' & _ & _ & Hprice & _).
  exists t'. split; [exact Hk'|exact Hprice].
Defined.

(** Witness of [ticket_sold_at_most_once]: after ["Q"] has bought ["t0"] in
    the sample run and has passed it on to ["P"], ["Q"] cannot buy it again. *)
Lemma ticket_sold_at_most_once_witness :
  Inv part_000 (sample part_000)
  ∧ (buyTicket part_000 (host "Q" 15 "y") (TransactionPayload.mk 100 "t0")
       (sample part_000)).1
    = Ok (Transaction.mk "y0" "buy" 100 "t0" None "Q" "O" 15 15)
  ∧ (buyTicket part_000 (host "Q" 17 "w") (TransactionPayload.mk 100 "t0")
       (run part_000 [(host "Q" 16 "z", TransferTicket "t0" "P")]
          (buyTicket part_000 (host "Q" 15 "y") (TransactionPayload.mk 100 "t0")
             (sample part_000)).2)).1
    = Err (BadRequest "Ticket has already been sold").
Proof.
  assert ((buyTicket part_000 (host "Q" 15 "y") (TransactionPayload.mk 100 "t0")
             (sample part_000)).1
          = Ok (Transaction.mk "y0" "buy" 100 "t0" None "Q" "O" 15 15)) as Hok
    by (vm_compute; reflexivity).
  split; [apply Inv_sample|]. split; [exact Hok|].
  apply (proj2 (ticket_sold_at_most_once part_000 (host "Q" 15 "y")
                  (TransactionPayload.mk 100 "t0") (sample part_000) _
                  [(host "Q" 16 "z", TransferTicket "t0" "P")]
                  (host "Q" 17 "w") (TransactionPayload.mk 100 "t0")
                  (Inv_sample part_000) Hok (conj I I) eq_refl)
           (User.mk "Q" "Quinn" "participant" 13 13)).
  - vm_compute. reflexivity.
  - reflexivity.
  - reflexivity.
Defined.

(** ** The queries *)

Lemma getMyTickets_filter v ic st user :
  users st !! caller ic = Some user →
  getMyTickets v ic st
  = Ok (List.filter
          (λ ticket,
             if bool_decide (User.role user = "organizer")
             then bool_decide (Ticket.organizerId ticket = caller ic)
             else bool_decide (Ticket.participantId ticket = Some (caller ic)))
          (mapValues (tickets st))).
Proof. intros Hu. destruct v; method_cases; eauto; absurd_case. Qed.

(** X9. What a transfer does to [getMyTickets]: on a reachable store, after
    [transferTicket] has returned [Ok], the list of the former holder holds
    no ticket with that identifier any more, and the list of the receiver
    holds the ticket, with the receiver as [participantId]. *)
Theorem transfer_moves_my_tickets (v : Version) (ic : Host) (ticketId : text)
    (participantId : Principal) (st : Storage) (newTransaction : Transaction.t) :
  Inv v st →
  (transferTicket v ic ticketId participantId st).1 = Ok newTransaction →
  ∃ ticket,
    tickets st !! ticketId = Some ticket
    ∧ (∀ ic',
         caller ic' = caller ic →
         ∃ mine,
           getMyTickets v ic' (transferTicket v ic ticketId participantId st).2 = Ok mine
           ∧ ∀ t, t ∈ mine → Ticket.id t ≠ ticketId)
    ∧ (∀ ic',
         caller ic' = participantId →
         ∃ mine,
           getMyTickets v ic' (transferTicket v ic ticketId participantId st).2 = Ok mine
           ∧ withParticipant ticket participantId (time ic) ∈ mine).
Proof.
  intros HI Hok.
  pose proof (Inv_step v ic (TransferTicket ticketId participantId) st HI I) as HI1.
  simpl in HI1.
  destruct (transferTicket v ic ticketId participantId st) as [r st1] eqn:E.
  simpl in *. subst r.
  apply transferTicket_inv in E
    as [(e & ? & _)|(s & u & t & tx & Hs & Hbs & Hu & Hbu & Hne & Ht & Hown & _ & _ & ->)];
    [done|].
  pose proof (inv_ticket_key _ _ HI _ _ Ht) as Hid. rewrite Hid in *.
  pose proof (buyer_participant _ _ _ _ HI Hs Hbs) as Hrs.
  pose proof (buyer_participant _ _ _ _ HI Hu Hbu) as Hru.
  exists t. split; [done|]. split.
  - intros ic' Hc. eexists. split.
    { apply getMyTickets_filter with (user := s). simpl. by rewrite Hc. }
    intros t' Hin. rewrite Hrs in Hin.
    apply elem_of_filter_values in Hin as [[k Hk] Hmine].
    simpl in Hk, Hmine. apply bool_decide_eq_true in Hmine.
    rewrite lookup_insert in Hk. case_decide; simplify_eq/=.
    all: try congruence.
    all: rewrite (inv_ticket_key _ _ HI _ _ Hk); congruence.
  - intros ic' Hc. eexists. split.
    { apply getMyTickets_filter with (user := u). simpl. by rewrite Hc. }
    rewrite Hru. apply elem_of_filter_values. split.
    + exists ticketId. simpl. apply lookup_insert_eq.
    + simpl. apply bool_decide_eq_true. by rewrite Hc.
Qed.

(** Witness of [transfer_moves_my_tickets]: ["P"] transfers ["t1"] to ["Q"]
    in the sample run. *)
Lemma transfer_moves_my_tickets_witness :
  Inv index_ts (sample index_ts)
  ∧ (transferTicket index_ts (host "P" 15 "y") "t1" "Q" (sample index_ts)).1
    = Ok (Transaction.mk "y0" "transfer" 0 "t1" (Some "P") "Q" "O" 15 15)
  ∧ ∃ ticket,
      tickets (sample index_ts) !! "t1" = Some ticket
      ∧ ∃ mine,
          getMyTickets index_ts (host "Q" 16 "z")
            (transferTicket index_ts (host "P" 15 "y") "t1" "Q" (sample index_ts)).2
          = Ok mine
          ∧ withParticipant ticket "Q" 15 ∈ mine.
Proof.
  assert ((transferTicket index_ts (host "P" 15 "y") "t1" "Q" (sample index_ts)).1
          = Ok (Transaction.mk "y0" "transfer" 0 "t1" (Some "P") "Q" "O" 15 15)) as Hok
    by (vm_compute; reflexivity).
  split; [apply Inv_sample|]. split; [exact Hok|].
  destruct (transfer_moves_my_tickets index_ts (host "P" 15 "y") "t1" "Q"
              (sample index_ts) _ (Inv_sample index_ts) Hok)
    as (ticket & Ht & _ & Hnew).
  exists ticket. split; [exact Ht|]. exact (Hnew (host "Q" 16 "z") eq_refl).
Defined.

(** X10. [getMyTransactions] by role: for a registered caller whose role is
    organizer it returns the transactions whose [organizerId] is the caller,
    for any other registered caller the transactions whose [participantId]
    or [senderId] is the caller; a caller without user record gets
    [Unauthorized]. *)
Theorem getMyTransactions_by_role (v : Version) (ic : Host) (st : Storage) :
  (users st !! caller ic = None →
     getMyTransactions v ic st = Err (Unauthorized "Create an account first"))
  ∧ (∀ user,
       users st !! caller ic = Some user → User.role user = "organizer" →
       ∃ mine,
         getMyTransactions v ic st = Ok mine
         ∧ ∀ x, x ∈ mine ↔
                (∃ k, transactions st !! k = Some x)
                ∧ Transaction.organizerId x = caller ic)
  ∧ (∀ user,
       users st !! caller ic = Some user → User.role user ≠ "organizer" →
       ∃ mine,
         getMyTransactions v ic st = Ok mine
         ∧ ∀ x, x ∈ mine ↔
                (∃ k, transactions st !! k = Some x)
                ∧ (Transaction.participantId x = caller ic
                   ∨ Transaction.senderId x = Some (caller ic))).
Proof.
  assert (∀ user, users st !! caller ic = Some user →
          getMyTransactions v ic st
          = Ok (List.filter
                  (λ transaction,
                     if bool_decide (User.role user = "organizer")
                     then bool_decide (Transaction.organizerId transaction = caller ic)
                     else bool_decide (Transaction.participantId transaction = caller ic)
                          || bool_decide (Transaction.senderId transaction = Some (caller ic)))
                  (mapValues (transactions st)))) as Hfilter.
  { intros user Hu. destruct v; method_cases; eauto; absurd_case. }
  split_and!.
  - intros Hu. destruct v; method_cases; eauto; absurd_case.
  - intros user Hu Hr. eexists. split; [by apply Hfilter|].
    intros x. rewrite elem_of_filter_values, Hr.
    rewrite bool_decide_eq_true_2 by done. by rewrite bool_decide_eq_true.
  - intros user Hu Hr. eexists. split; [by apply Hfilter|].
    intros x. rewrite elem_of_filter_values.
    rewrite bool_decide_eq_false_2 by done.
    by rewrite orb_true_iff, !bool_decide_eq_true.
Qed.

(** Witness of [getMyTransactions_by_role]: the organizer of the sample run
    sees the one sale. *)
Lemma getMyTransactions_by_role_witness :
  users (sample index_ts) !! caller (host "O" 15 "y")
  = Some (User.mk "O" "Olga" "organizer" 10 10)
  ∧ ∃ mine,
      getMyTransactions index_ts (host "O" 15 "y") (sample index_ts) = Ok mine
      ∧ Transaction.mk "x0" "buy" 100 "t1" None "P" "O" 14 14 ∈ mine.
Proof.
  assert (users (sample index_ts) !! caller (host "O" 15 "y")
          = Some (User.mk "O" "Olga" "organizer" 10 10)) as Hu
    by (vm_compute; reflexivity).
  split; [exact Hu|].
  destruct (proj1 (proj2 (getMyTransactions_by_role index_ts (host "O" 15 "y")
                            (sample index_ts))) _ Hu eq_refl) as (mine & Hmine & Hin).
  exists mine. split; [exact Hmine|]. apply Hin. split.
  - exists "x0". vm_compute. reflexivity.
  - reflexivity.
Defined.

(** ** What a successful call has checked and written *)

Section Success.
Context (v : Version) (ic : Host) (st : Storage).

Lemma createEvent_Ok payload newEvent st' :
  createEvent v ic payload st = (Ok newEvent, st') →
  (∃ user, users st !! caller ic = Some user ∧ User.role user = "organizer")
  ∧ newEvent
    = Event.mk (uuidv4 ic 0) (EventPayload.name payload) (EventPayload.date payload)
        (EventPayload.location payload) (caller ic) (time ic) (time ic)
  ∧ st' = setEvents st (<[uuidv4 ic 0 := newEvent]> (events st)).
Proof. intros H. destruct v; method_cases; eauto. Qed.

Lemma createTickets_Ok quantity payload newTickets st' :
  createTickets v ic quantity payload st = (Ok newTickets, st') →
  (∃ user, users st !! caller ic = Some user ∧ User.role user = "organizer")
  ∧ (∃ event, events st !! TicketPayload.eventId payload = Some event
              ∧ Event.organizerId event = caller ic)
  ∧ newTickets = issue ic payload <$> uuids ic 0 (N.to_nat quantity)
  ∧ st' = setTickets st
            (insertAll ic payload (uuids ic 0 (N.to_nat quantity)) (tickets st)).
Proof.
  intros H. destruct v; method_cases; eauto.
  all: rewrite createTickets_loop_spec in *; simplify_eq/=; eauto 10.
Qed.

Lemma buyTicket_Ok payload newTransaction st' :
  buyTicket v ic payload st = (Ok newTransaction, st') →
  ∃ ticket,
    tickets st !! TransactionPayload.ticketId payload = Some ticket
    ∧ Ticket.price ticket = TransactionPayload.pay payload
    ∧ newTransaction
      = Transaction.mk (uuidv4 ic 0) "buy" (TransactionPayload.pay payload)
          (TransactionPayload.ticketId payload) None (caller ic)
          (Ticket.organizerId ticket) (time ic) (time ic).
Proof. intros H. destruct v; method_cases; eauto. Qed.

Lemma transferTicket_Ok ticketId participantId newTransaction st' :
  transferTicket v ic ticketId participantId st = (Ok newTransaction, st') →
  ∃ ticket,
    tickets st !! ticketId = Some ticket
    ∧ newTransaction
      = Transaction.mk (uuidv4 ic 0) "transfer" 0 (Ticket.id ticket) (Some (caller ic))
          participantId (Ticket.organizerId ticket) (time ic) (time ic).
Proof. intros H. destruct v; method_cases; eauto. Qed.

End Success.

(** X11. [getTicketsByEvent] ([getEventTickets] in the second source)
    answers [NotFound] for an event that is not in the store and otherwise
    returns the tickets of the store whose [eventId] is the one asked for;
    after a [createTickets] that returned [Ok], it returns every new ticket,
    each unsold, for the event of the payload. *)
Theorem getTicketsByEvent_reply (v : Version) (eventId : text) (st : Storage) :
  (events st !! eventId = None →
     getTicketsByEvent v eventId st
     = Err (NotFound ("Event with id " +:+ eventId +:+ " not found")))
  ∧ (is_Some (events st !! eventId) →
     ∃ found,
       getTicketsByEvent v eventId st = Ok found
       ∧ ∀ t, t ∈ found ↔
              (∃ k, tickets st !! k = Some t) ∧ Ticket.eventId t = eventId)
  ∧ (∀ ic quantity payload newTickets,
       TicketPayload.eventId payload = eventId →
       (createTickets v ic quantity payload st).1 = Ok newTickets →
       ∃ found,
         getTicketsByEvent v eventId (createTickets v ic quantity payload st).2 = Ok found
         ∧ ∀ t, t ∈ newTickets → t ∈ found ∧ Ticket.participantId t = None).
Proof.
  assert (∀ st, is_Some (events st !! eventId) →
          getTicketsByEvent v eventId st
          = Ok (List.filter (λ ticket, bool_decide (Ticket.eventId ticket = eventId))
                            (mapValues (tickets st)))) as Hfilter.
  { intros st0 [e He]. destruct v; method_cases; eauto; absurd_case. }
  split_and!.
  - intros He. destruct v; method_cases; eauto; absurd_case.
  - intros He. eexists. split; [by apply Hfilter|].
    intros t. by rewrite elem_of_filter_values, bool_decide_eq_true.
  - intros ic quantity payload newTickets Hid Hok.
    destruct (createTickets v ic quantity payload st) as [r st'] eqn:E.
    simpl in *. subst r.
    apply createTickets_Ok in E as (_ & (event & He & _) & -> & ->).
    eexists. split; [apply Hfilter; simpl; rewrite <- Hid; eauto|].
    intros t (id & -> & Hin)%list_elem_of_fmap. split; [|done].
    apply elem_of_filter_values. split.
    + exists id. simpl. rewrite insertAll_lookup. by rewrite decide_True.
    + simpl. by apply bool_decide_eq_true.
Qed.

(** Witness of [getTicketsByEvent_reply]: the event ["e0"] of the sample
    run and its unsold ticket ["t0"]. *)
Lemma getTicketsByEvent_reply_witness :
  is_Some (events (sample part_000) !! "e0")
  ∧ ∃ found,
      getTicketsByEvent part_000 "e0" (sample part_000) = Ok found
      ∧ issue (host "O" 12 "t") (TicketPayload.mk "regular" 100 "e0") "t0" ∈ found.
Proof.
  assert (is_Some (events (sample part_000) !! "e0")) as He
    by (eexists; vm_compute; reflexivity).
  split; [exact He|].
  destruct (proj1 (proj2 (getTicketsByEvent_reply part_000 "e0" (sample part_000))) He)
    as (found & Hfound & Hin).
  exists found. split; [exact Hfound|]. apply Hin. split.
  - exists "t0". vm_compute. reflexivity.
  - reflexivity.
Defined.

(** ** How the records refer to one another *)

Lemma Linked_empty : Linked emptyStorage.
Proof. split; simpl; intros; simplify_map_eq. Qed.

Lemma Linked_sold v st ticket k p now tx :
  Inv v st → Linked st →
  tickets st !! k = Some ticket →
  transactions st !! Transaction.id tx = None →
  Transaction.ticketId tx = k →
  Transaction.participantId tx = p →
  Transaction.organizerId tx = Ticket.organizerId ticket →
  (∃ u, users st !! p = Some u ∧ User.role u = "participant") →
  (Transaction.mode tx = "buy" ∧ Transaction.senderId tx = None
   ∧ Transaction.pay tx = Ticket.price ticket)
  ∨ (Transaction.mode tx = "transfer" ∧ Transaction.pay tx = 0
     ∧ ∃ s u, Transaction.senderId tx = Some s ∧ s ≠ p
              ∧ users st !! s = Some u ∧ User.role u = "participant") →
  Linked (setTransactions
            (setTickets st (<[k := withParticipant ticket p now]> (tickets st)))
            (<[Transaction.id tx := tx]> (transactions st))).
Proof.
  intros HI HL Ht Hfresh Htid Hpid Hoid Hp Hmode.
  split; simpl.
  - by eapply linked_user_key.
  - by eapply linked_event_key.
  - intros kx x. rewrite lookup_insert. case_decide; intros; simplify_eq/=; [done|].
    by eapply linked_transaction_key.
  - by eapply linked_event_owner.
  - intros k' t'. rewrite lookup_insert. case_decide; intros; simplify_eq/=.
    + by eapply (linked_ticket_event _ HL).
    + by eapply (linked_ticket_event _ HL).
  - intros kx x. rewrite lookup_insert. case_decide as Hkx; intros Hx; simplify_eq/=.
    + exists (withParticipant ticket (Transaction.participantId x) now).
      rewrite lookup_insert_eq. split_and!; try done.
      all: destruct Hmode as [?|(? & ? & s & u & ? & ? & ? & ?)]; [by left|right].
      all: split_and!; try done; by exists s, u.
    + destruct (linked_transaction_ticket _ HL _ _ Hx) as (t0 & Ht0 & Ho & Hu & Hm).
      destruct (decide (Transaction.ticketId tx = Transaction.ticketId x)) as [Heq|Hne].
      * rewrite <- Heq, Ht in Ht0. simplify_eq.
        exists (withParticipant t0 (Transaction.participantId tx) now).
        rewrite <- Heq, lookup_insert_eq. split_and!; done.
      * exists t0. rewrite lookup_insert_ne by done. split_and!; done.
  - intros k' t' p'. rewrite lookup_insert. case_decide; intros Ht' Hh; simplify_eq/=.
    + exists (Transaction.id tx), tx. rewrite lookup_insert_eq. done.
    + destruct (linked_holder_transaction _ HL _ _ _ Ht' Hh) as (kx & x & Hx & ? & ?).
      exists kx, x. rewrite lookup_insert_ne; [done|congruence].
Qed.

Lemma Linked_step v ic call st :
  Inv v st → Linked st →
  admissible v ic call st → fresh_ids ic call st →
  Linked (canister v ic call st).2.
Proof.
  intros HI HL Hadm Hfresh. destruct call; simpl; try done.
  - pose proof (users_step v ic (CreateUser payload) st) as Hmono. simpl in Hmono.
    destruct (createUser v ic payload st) as [r st'] eqn:E; simpl in *.
    apply createUser_inv in E as [(e & -> & ->)|(u & -> & Hnew & Hid & _ & ->)]; [done|].
    simpl in Hmono. split; simpl.
    + intros p u'. rewrite lookup_insert. case_decide; intros; simplify_eq/=; [done|].
      by eapply linked_user_key.
    + by eapply linked_event_key.
    + by eapply linked_transaction_key.
    + intros k e He. destruct (linked_event_owner _ HL _ _ He) as (u' & ? & ?). eauto.
    + by eapply linked_ticket_event.
    + intros k x Hx.
      destruct (linked_transaction_ticket _ HL _ _ Hx)
        as (t & ? & ? & (u1 & ? & ?) & Hm).
      exists t. split_and!; eauto.
      destruct Hm as [?|(? & ? & s & u2 & ? & ? & ? & ?)]; [by left|right].
      split_and!; try done. exists s, u2. eauto.
    + by eapply linked_holder_transaction.
  - destruct (createEvent v ic payload st) as [[newEvent|e] st'] eqn:E; simpl;
      [|apply createEvent_inv in E as [(? & ? & ->)|(? & ? & _)]; done].
    apply createEvent_Ok in E as ((user & Hu & Hr) & -> & ->). simpl in *.
    split; simpl.
    + by eapply linked_user_key.
    + intros k e. rewrite lookup_insert. case_decide; intros; simplify_eq/=; [done|].
      by eapply linked_event_key.
    + by eapply linked_transaction_key.
    + intros k e. rewrite lookup_insert. case_decide; intros; simplify_eq/=; [eauto|].
      by eapply linked_event_owner.
    + intros k t Ht. destruct (linked_ticket_event _ HL _ _ Ht) as (e & He & ?).
      exists e. split; [|done]. rewrite lookup_insert_ne; [done|congruence].
    + by eapply linked_transaction_ticket.
    + by eapply linked_holder_transaction.
  - destruct (createTickets v ic quantity payload st) as [[newTickets|e] st'] eqn:E; simpl;
      [|apply createTickets_inv in E as [(? & ? & ->)|(? & _)]; done].
    apply createTickets_Ok in E as (_ & (event & He & Hown) & -> & ->).
    destruct Hadm as [Hnew _].
    assert (∀ k t, tickets st !! k = Some t →
            insertAll ic payload (uuids ic 0 (N.to_nat quantity)) (tickets st) !! k
            = Some t) as Hold.
    { intros k t Ht. rewrite insertAll_lookup. case_decide as Hin; [|done].
      apply elem_of_uuids in Hin as (j & Hj & ->). rewrite Hnew in Ht by lia. done. }
    split; simpl.
    + by eapply linked_user_key.
    + by eapply linked_event_key.
    + by eapply linked_transaction_key.
    + by eapply linked_event_owner.
    + intros k t. rewrite insertAll_lookup. case_decide; intros; simplify_eq/=; [eauto|].
      by eapply linked_ticket_event.
    + intros k x Hx.
      destruct (linked_transaction_ticket _ HL _ _ Hx) as (t & Ht & ?). eauto.
    + intros k t p. rewrite insertAll_lookup. case_decide; intros; simplify_eq/=.
      by eapply linked_holder_transaction.
  - destruct (buyTicket v ic payload st) as [[tx|e] st'] eqn:E; simpl;
      [|apply buyTicket_inv in E as [(? & ? & ->)|(? & ? & ? & _ & _ & _ & _ & _ & ? & _)];
        done].
    pose proof E as E'. apply buyTicket_Ok in E' as (t & Ht & Hprice & Htx).
    apply buyTicket_inv in E
      as [(e & ? & _)|(u & t0 & tx0 & Hu & Hb & Ht0 & _ & _ & ? & _ & ->)]; [done|].
    simplify_eq/=. rewrite (inv_ticket_key _ _ HI _ _ Ht0).
    eapply (Linked_sold v st t0 _ (caller ic) (time ic)
              (Transaction.mk (uuidv4 ic 0) "buy" (TransactionPayload.pay payload)
                 (TransactionPayload.ticketId payload) None (caller ic)
                 (Ticket.organizerId t0) (time ic) (time ic)));
      eauto using buyer_participant.
  - destruct (transferTicket v ic ticketId participantId st) as [[tx|e] st'] eqn:E; simpl;
      [|apply transferTicket_inv in E
          as [(? & ? & ->)|(? & ? & ? & ? & _ & _ & _ & _ & _ & _ & _ & ? & _)]; done].
    pose proof E as E'. apply transferTicket_Ok in E' as (t & Ht & Htx).
    apply transferTicket_inv in E
      as [(e & ? & _)|(s & u & t0 & tx0 & Hs & Hbs & Hu & Hbu & Hne & Ht0 & _ & ? & _ & ->)];
      [done|].
    simplify_eq/=. pose proof (inv_ticket_key _ _ HI _ _ Ht0) as Hid. subst ticketId.
    eapply (Linked_sold v st t0 _ participantId (time ic)
              (Transaction.mk (uuidv4 ic 0) "transfer" 0 (Ticket.id t0) (Some (caller ic))
                 participantId (Ticket.organizerId t0) (time ic) (time ic)));
      eauto using buyer_participant.
    right. split_and!; try done. exists (caller ic), s.
    split_and!; eauto using buyer_participant.
Qed.

Lemma hosted_admissible v calls st : hosted_run v calls st → admissible_run v calls st.
Proof.
  revert st. induction calls as [|[ic call] calls IH]; intros st; [done|].
  intros (? & ? & ?). split; eauto.
Qed.

Lemma Linked_run v calls st :
  Inv v st → Linked st → hosted_run v calls st →
  Linked (run v calls st).
Proof.
  revert st. induction calls as [|[ic call] calls IH]; intros st HI HL Hrun; [done|].
  destruct Hrun as (Hadm & Hfresh & Hrest). simpl.
  apply IH; eauto using Inv_step, Linked_step.
Qed.

Lemma sample_hosted v : hosted_run v sample_calls emptyStorage.
Proof.
  destruct v; unfold sample_calls; cbn [hosted_run admissible fresh_ids];
    split_and!; try exact I; try discriminate; try (vm_compute; reflexivity).
  all: try intros _; intros i Hi; small_index i Hi.
Qed.

(** X12. Tickets belong to events: in every store built from the empty
    stores by calls with fresh identifiers, each ticket is stored under its
    own identifier, its [eventId] is the key of an event of the store, and its
    [organizerId] is the owner of that event, a registered organizer. *)
Theorem tickets_belong_to_events (v : Version) (calls : list (Host * Call))
    (k : text) (t : Ticket.t) :
  hosted_run v calls emptyStorage →
  tickets (run v calls emptyStorage) !! k = Some t →
  Ticket.id t = k
  ∧ ∃ event organizer,
      events (run v calls emptyStorage) !! Ticket.eventId t = Some event
      ∧ Event.id event = Ticket.eventId t
      ∧ Event.organizerId event = Ticket.organizerId t
      ∧ users (run v calls emptyStorage) !! Ticket.organizerId t = Some organizer
      ∧ User.role organizer = "organizer".
Proof.
  intros Hrun Ht.
  pose proof (Inv_run v calls _ (Inv_empty v) (hosted_admissible _ _ _ Hrun)) as HI.
  pose proof (Linked_run v calls _ (Inv_empty v) Linked_empty Hrun) as HL.
  split; [by eapply inv_ticket_key|].
  destruct (linked_ticket_event _ HL _ _ Ht) as (e & He & Ho).
  destruct (linked_event_owner _ HL _ _ He) as (u & Hu & Hr).
  exists e, u. rewrite <- Ho. split_and!; eauto using linked_event_key.
Qed.

(** Witness of [tickets_belong_to_events]: the ticket ["t2"] of the sample
    run. *)
Lemma tickets_belong_to_events_witness :
  hosted_run index_ts sample_calls emptyStorage
  ∧ tickets (run index_ts sample_calls emptyStorage) !! "t2"
    = Some (issue (host "O" 12 "t") (TicketPayload.mk "regular" 100 "e0") "t2")
  ∧ ∃ event organizer,
      events (run index_ts sample_calls emptyStorage) !! "e0" = Some event
      ∧ Event.id event = "e0"
      ∧ Event.organizerId event = "O"
      ∧ users (run index_ts sample_calls emptyStorage) !! "O" = Some organizer
      ∧ User.role organizer = "organizer".
Proof.
  assert (tickets (run index_ts sample_calls emptyStorage) !! "t2"
          = Some (issue (host "O" 12 "t") (TicketPayload.mk "regular" 100 "e0") "t2"))
    as Ht by (vm_compute; reflexivity).
  split; [apply sample_hosted|]. split; [exact Ht|].
  exact (proj2 (tickets_belong_to_events index_ts sample_calls "t2" _
                  (sample_hosted index_ts) Ht)).
Defined.

(** X13. The ledger is well formed: in every store built from the empty
    stores by calls with fresh identifiers, each transaction is stored under
    its own identifier, is about a ticket of the store and carries that
    ticket's organizer, has a registered participant as [participantId], and
    is either a buy (no sender, pay equal to the ticket's price) or a
    transfer (pay 0, the sender a registered participant other than the
    receiver). *)
Theorem ledger_well_formed (v : Version) (calls : list (Host * Call))
    (k : text) (x : Transaction.t) :
  hosted_run v calls emptyStorage →
  transactions (run v calls emptyStorage) !! k = Some x →
  Transaction.id x = k
  ∧ ∃ t receiver,
      tickets (run v calls emptyStorage) !! Transaction.ticketId x = Some t
      ∧ Ticket.organizerId t = Transaction.organizerId x
      ∧ users (run v calls emptyStorage) !! Transaction.participantId x = Some receiver
      ∧ User.role receiver = "participant"
      ∧ ((Transaction.mode x = "buy" ∧ Transaction.senderId x = None
          ∧ Transaction.pay x = Ticket.price t)
         ∨ (Transaction.mode x = "transfer" ∧ Transaction.pay x = 0
            ∧ ∃ s sender,
                Transaction.senderId x = Some s ∧ s ≠ Transaction.participantId x
                ∧ users (run v calls emptyStorage) !! s = Some sender
                ∧ User.role sender = "participant")).
Proof.
  intros Hrun Hx.
  pose proof (Linked_run v calls _ (Inv_empty v) Linked_empty Hrun) as HL.
  split; [by eapply linked_transaction_key|].
  destruct (linked_transaction_ticket _ HL _ _ Hx) as (t & Ht & Ho & (u & Hu & Hr) & Hm).
  exists t, u. split_and!; done.
Qed.

(** Witness of [ledger_well_formed]: the one transaction of the sample
    run. *)
Lemma ledger_well_formed_witness :
  hosted_run part_000 sample_calls emptyStorage
  ∧ transactions (run part_000 sample_calls emptyStorage) !! "x0"
    = Some (Transaction.mk "x0" "buy" 100 "t1" None "P" "O" 14 14)
  ∧ ∃ t receiver,
      tickets (run part_000 sample_calls emptyStorage) !! "t1" = Some t
      ∧ Ticket.organizerId t = "O"
      ∧ users (run part_000 sample_calls emptyStorage) !! "P" = Some receiver
      ∧ User.role receiver = "participant".
Proof.
  assert (transactions (run part_000 sample_calls emptyStorage) !! "x0"
          = Some (Transaction.mk "x0" "buy" 100 "t1" None "P" "O" 14 14))
    as Hx by (vm_compute; reflexivity).
  split; [apply sample_hosted|]. split; [exact Hx|].
  destruct (proj2 (ledger_well_formed part_000 sample_calls "x0" _
                     (sample_hosted part_000) Hx))
    as (t & receiver & Ht & Ho & Hu & Hr & _).
  exists t, receiver. split_and!; [exact Ht|exact Ho|exact Hu|exact Hr].
Defined.

(** X14. Every holder is accounted for: in every store built from the empty
    stores by calls with fresh identifiers, the [participantId] of a ticket,
    when set, is a registered participant (never an organizer) and is the
    [participantId] of a recorded transaction about that ticket. *)
Theorem holders_are_accounted_for (v : Version) (calls : list (Host * Call))
    (k : text) (t : Ticket.t) (p : Principal) :
  hosted_run v calls emptyStorage →
  tickets (run v calls emptyStorage) !! k = Some t →
  Ticket.participantId t = Some p →
  (∃ holder, users (run v calls emptyStorage) !! p = Some holder
             ∧ User.role holder = "participant")
  ∧ ∃ kx x, transactions (run v calls emptyStorage) !! kx = Some x
            ∧ Transaction.ticketId x = k ∧ Transaction.participantId x = p.
Proof.
  intros Hrun Ht Hp.
  pose proof (Inv_run v calls _ (Inv_empty v) (hosted_admissible _ _ _ Hrun)) as HI.
  pose proof (Linked_run v calls _ (Inv_empty v) Linked_empty Hrun) as HL.
  split; [by eapply inv_holder|by eapply linked_holder_transaction].
Qed.

(** Witness of [holders_are_accounted_for]: the ticket ["t1"] of the sample
    run, held by ["P"]. *)
Lemma holders_are_accounted_for_witness :
  hosted_run index_ts sample_calls emptyStorage
  ∧ tickets (run index_ts sample_calls emptyStorage) !! "t1"
    = Some (withParticipant
              (issue (host "O" 12 "t") (TicketPayload.mk "regular" 100 "e0") "t1") "P" 14)
  ∧ ∃ kx x, transactions (run index_ts sample_calls emptyStorage) !! kx = Some x
            ∧ Transaction.ticketId x = "t1" ∧ Transaction.participantId x = "P".
Proof.
  assert (tickets (run index_ts sample_calls emptyStorage) !! "t1"
          = Some (withParticipant
                    (issue (host "O" 12 "t") (TicketPayload.mk "regular" 100 "e0") "t1")
                    "P" 14)) as Ht by (vm_compute; reflexivity).
  split; [apply sample_hosted|]. split; [exact Ht|].
  exact (proj2 (holders_are_accounted_for index_ts sample_calls "t1" _ "P"
                  (sample_hosted index_ts) Ht eq_refl)).
Defined.

(** ** The stores only grow *)

Lemma append_step v ic call st :
  fresh_ids ic call st →
  (∀ k e, events st !! k = Some e → events (canister v ic call st).2 !! k = Some e)
  ∧ (∀ k x, transactions st !! k = Some x →
            transactions (canister v ic call st).2 !! k = Some x).
Proof.
  intros Hfresh. destruct call; simpl; try done.
  - destruct (createUser v ic payload st) as [r st'] eqn:E; simpl.
    apply createUser_inv in E as [(e & -> & ->)|(u' & -> & Hnew & _ & _ & ->)]; done.
  - destruct (createEvent v ic payload st) as [r st'] eqn:E; simpl.
    apply createEvent_inv in E as [(e & -> & ->)|(u' & -> & ->)]; [done|].
    simpl in *. split; [|done]. intros key old Hold.
    rewrite lookup_insert_ne; [done|congruence].
  - destruct (createTickets v ic quantity payload st) as [r st'] eqn:E; simpl.
    apply createTickets_inv in E as [(e & -> & ->)|(-> & -> & _)]; done.
  - destruct (buyTicket v ic payload st) as [r st'] eqn:E; simpl.
    apply buyTicket_inv in E
      as [(e & -> & ->)|(? & ? & ? & _ & _ & _ & _ & _ & -> & _ & ->)]; [done|].
    simpl in *. split; [done|]. intros key old Hold.
    rewrite lookup_insert_ne; [done|congruence].
  - destruct (transferTicket v ic ticketId participantId st) as [r st'] eqn:E; simpl.
    apply transferTicket_inv in E
      as [(e & -> & ->)|(? & ? & ? & ? & _ & _ & _ & _ & _ & _ & _ & -> & _ & ->)];
      [done|].
    simpl in *. split; [done|]. intros key old Hold.
    rewrite lookup_insert_ne; [done|congruence].
Qed.

(** X15. Events and transactions are append-only: when the identifiers
    generated for new events and new transactions are fresh, an event or a
    transaction of the store is still there, unchanged, after any sequence of
    calls. *)
Theorem events_and_transactions_append_only (v : Version)
    (calls : list (Host * Call)) (st : Storage) :
  hosted_run v calls st →
  (∀ k e, events st !! k = Some e → events (run v calls st) !! k = Some e)
  ∧ (∀ k x, transactions st !! k = Some x →
            transactions (run v calls st) !! k = Some x).
Proof.
  revert st. induction calls as [|[ic call] calls IH]; intros st Hrun; [done|].
  destruct Hrun as (_ & Hfresh & Hrest). simpl.
  destruct (append_step v ic call st Hfresh) as [He Hx].
  destruct (IH _ Hrest) as [He' Hx']. split; eauto.
Qed.

(** Witness of [events_and_transactions_append_only]: the sale of the sample
    run is still in the ledger after a transfer of the same ticket. *)
Lemma events_and_transactions_append_only_witness :
  hosted_run index_ts [(host "P" 15 "y", TransferTicket "t1" "Q")] (sample index_ts)
  ∧ transactions (sample index_ts) !! "x0"
    = Some (Transaction.mk "x0" "buy" 100 "t1" None "P" "O" 14 14)
  ∧ transactions (run index_ts [(host "P" 15 "y", TransferTicket "t1" "Q")]
                    (sample index_ts)) !! "x0"
    = Some (Transaction.mk "x0" "buy" 100 "t1" None "P" "O" 14 14).
Proof.
  assert (hosted_run index_ts [(host "P" 15 "y", TransferTicket "t1" "Q")]
            (sample index_ts)) as Hrun.
  { cbn [hosted_run admissible fresh_ids]. split_and!; try exact I.
    vm_compute. reflexivity. }
  assert (transactions (sample index_ts) !! "x0"
          = Some (Transaction.mk "x0" "buy" 100 "t1" None "P" "O" 14 14)) as Hx
    by (vm_compute; reflexivity).
  split; [exact Hrun|]. split; [exact Hx|].
  exact (proj2 (events_and_transactions_append_only index_ts _ _ Hrun) _ _ Hx).
Defined.

(** ** Exceptions *)

(** X16. [InternalError] is the reply of a caught exception.  No method of
    [src/index.ts] ever returns it; the second source returns it in one
    situation only, a [transferTicket] of an existing ticket that is unsold,
    and then leaves the stores as they were. *)
Theorem InternalError_only_for_unsold_transfer (v : Version) (ic : Host) (call : Call)
    (st : Storage) (message : text) :
  replyError (canister v ic call st).1 = Some (InternalError message) →
  v = part_000
  ∧ (canister v ic call st).2 = st
  ∧ ∃ ticketId participantId ticket,
      call = TransferTicket ticketId participantId
      ∧ tickets st !! ticketId = Some ticket
      ∧ Ticket.participantId ticket = None.
Proof.
  intros H. destruct call, v; simpl in H; method_cases; absurd_case.
  all: try rewrite createTickets_loop_spec in *; simplify_eq/=.
  all: split_and!; try done; eauto 10.
  all: method_cases; absurd_case.
Qed.

(** Witness of [InternalError_only_for_unsold_transfer]: ["P"] tries to
    transfer the unsold ticket ["t0"] of the sample run. *)
Lemma InternalError_only_for_unsold_transfer_witness :
  replyError (canister part_000 (host "P" 15 "y") (TransferTicket "t0" "Q")
                (sample part_000)).1
  = Some (InternalError TypeError)
  ∧ (canister part_000 (host "P" 15 "y") (TransferTicket "t0" "Q") (sample part_000)).2
    = sample part_000.
Proof.
  assert (replyError (canister part_000 (host "P" 15 "y") (TransferTicket "t0" "Q")
                        (sample part_000)).1
          = Some (InternalError TypeError)) as H by (vm_compute; reflexivity).
  split; [exact H|].
  exact (proj1 (proj2 (InternalError_only_for_unsold_transfer part_000 _ _ _ _ H))).
Defined.

(** ** Blank texts *)

Lemma trimStart_head s :
  trimStart s = [] ∨ ∃ c s', trimStart s = c :: s' ∧ isWhiteSpace c = false.
Proof.
  induction s as [|c s IH]; simpl; [by left|].
  destruct (isWhiteSpace c) eqn:E; [done|]. right. eauto.
Qed.

Lemma trimStart_nil s : trimStart s = [] ↔ Forall (λ c, isWhiteSpace c = true) s.
Proof.
  induction s as [|c s IH]; simpl; [by split|].
  destruct (isWhiteSpace c) eqn:E.
  - rewrite IH. split; [by constructor|by inversion 1].
  - split; [done|]. inversion 1. congruence.
Qed.

(** X17. [isStringEmpty] of the second source holds exactly of the texts
    whose code units are all white space (the empty text among them): a text
    with one code unit that is not white space is never taken for empty,
    whatever surrounds it. *)
Theorem isStringEmpty_white_space (str : text) :
  Part000.isStringEmpty str = true
  ↔ Forall (λ c, isWhiteSpace c = true) (codeUnits str).
Proof.
  unfold Part000.isStringEmpty, trim, trimEnd.
  rewrite negb_true_iff, Nat.ltb_ge, length_rev.
  rewrite <- trimStart_nil. split.
  - intros Hlen.
    assert (trimStart (rev (trimStart (codeUnits str))) = []) as Hnil
      by (by destruct (trimStart (rev _)); [|simpl in Hlen; lia]).
    apply trimStart_nil in Hnil.
    destruct (trimStart_head (codeUnits str)) as [?|(c & s' & Hs & Hc)]; [done|].
    rewrite Hs in Hnil. apply Forall_forall with (x := c) in Hnil; [congruence|].
    apply list_elem_of_In, in_rev. rewrite rev_involutive. by left.
  - intros ->. simpl. lia.
Qed.

(** Witness of [isStringEmpty_white_space]: a no-break space (U+00A0)
    followed by a space. *)
Lemma isStringEmpty_white_space_witness :
  Forall (λ c, isWhiteSpace c = true)
    (codeUnits (String (ascii_of_N 0xC2) (String (ascii_of_N 0xA0) " ")))
  ∧ Part000.isStringEmpty (String (ascii_of_N 0xC2) (String (ascii_of_N 0xA0) " ")) = true.
Proof.
  assert (Forall (λ c, isWhiteSpace c = true)
            (codeUnits (String (ascii_of_N 0xC2) (String (ascii_of_N 0xA0) " ")))) as H
    by (vm_compute; repeat constructor).
  split; [exact H|].
  exact (proj2 (isStringEmpty_white_space _) H).
Defined.

(** ** Histories *)

Lemma getMyTransactions_filter v ic st user :
  users st !! caller ic = Some user →
  getMyTransactions v ic st
  = Ok (List.filter
          (λ transaction,
             if bool_decide (User.role user = "organizer")
             then bool_decide (Transaction.organizerId transaction = caller ic)
             else bool_decide (Transaction.participantId transaction = caller ic)
                  || bool_decide (Transaction.senderId transaction = Some (caller ic)))
          (mapValues (transactions st))).
Proof. intros Hu. destruct v; method_cases; eauto; absurd_case. Qed.

Lemma transaction_recorded v ic call st newTransaction :
  (canister v ic call st).1 = TransactionReply (Ok newTransaction) →
  transactions (canister v ic call st).2 !! uuidv4 ic 0 = Some newTransaction
  ∧ (Transaction.senderId newTransaction = None
     ∧ Transaction.participantId newTransaction = caller ic
     ∨ Transaction.senderId newTransaction = Some (caller ic)).
Proof.
  intros Hok. destruct call; simpl in *; try done.
  - destruct (buyTicket v ic payload st) as [r st1] eqn:E. simpl in *. simplify_eq.
    pose proof E as E'. apply buyTicket_Ok in E' as (t & _ & _ & ->).
    apply buyTicket_inv in E
      as [(e & ? & _)|(? & ? & ? & _ & _ & _ & _ & _ & ? & _ & ->)]; [done|].
    simplify_eq. simpl. rewrite lookup_insert_eq. eauto.
  - destruct (transferTicket v ic ticketId participantId st) as [r st1] eqn:E.
    simpl in *. simplify_eq.
    pose proof E as E'. apply transferTicket_Ok in E' as (t & _ & ->).
    apply transferTicket_inv in E
      as [(e & ? & _)|(? & ? & ? & ? & _ & _ & _ & _ & _ & _ & _ & ? & _ & ->)];
      [done|].
    simplify_eq. simpl. rewrite lookup_insert_eq. eauto.
Qed.

Lemma transaction_shown v ic st user transaction :
  users st !! caller ic = Some user →
  transaction ∈ mapValues (transactions st) →
  (if bool_decide (User.role user = "organizer")
   then bool_decide (Transaction.organizerId transaction = caller ic)
   else bool_decide (Transaction.participantId transaction = caller ic)
        || bool_decide (Transaction.senderId transaction = Some (caller ic)))
  = true →
  ∃ mine, getMyTransactions v ic st = Ok mine ∧ transaction ∈ mine.
Proof.
  intros Hu Hin Hpass. eexists. split; [by apply getMyTransactions_filter|].
  apply elem_of_filter_values. split; [by apply elem_of_mapValues|done].
Qed.

(** X18. A sale or a transfer shows in the histories of its parties: in a
    store built from the empty stores by calls with fresh identifiers, when
    [buyTicket] or [transferTicket] returns a transaction, that transaction
    is in the [getMyTransactions] of its participant, of the caller, and of
    the organizer of the ticket. *)
Theorem transaction_shows_in_histories (v : Version) (calls : list (Host * Call))
    (ic : Host) (call : Call) (newTransaction : Transaction.t) :
  hosted_run v calls emptyStorage →
  fresh_ids ic call (run v calls emptyStorage) →
  (canister v ic call (run v calls emptyStorage)).1
  = TransactionReply (Ok newTransaction) →
  ∀ ic',
    caller ic' = Transaction.participantId newTransaction
    ∨ caller ic' = caller ic
    ∨ caller ic' = Transaction.organizerId newTransaction →
    ∃ mine,
      getMyTransactions v ic' (canister v ic call (run v calls emptyStorage)).2 = Ok mine
      ∧ newTransaction ∈ mine.
Proof.
  intros Hrun Hfresh Hok ic' Hwho.
  pose proof (Inv_run v calls _ (Inv_empty v) (hosted_admissible _ _ _ Hrun)) as HI.
  pose proof (Linked_run v calls _ (Inv_empty v) Linked_empty Hrun) as HL.
  assert (admissible v ic call (run v calls emptyStorage)) as Hadm
    by (by destruct call).
  pose proof (Linked_step v ic call _ HI HL Hadm Hfresh) as HL1.
  destruct (transaction_recorded _ _ _ _ _ Hok) as (Hx & Hsender).
  revert HL1 Hx.
  generalize (canister v ic call (run v calls emptyStorage)).2. intros st1 HL1 Hx.
  assert (newTransaction ∈ mapValues (transactions st1)) as Hin
    by (apply elem_of_mapValues; eauto).
  destruct (linked_transaction_ticket _ HL1 _ _ Hx)
    as (t & Ht & Ho & (u & Hu & Hr) & Hm).
  destruct (linked_ticket_event _ HL1 _ _ Ht) as (e & He & Hoe).
  destruct (linked_event_owner _ HL1 _ _ He) as (o & Huo & Hro).
  destruct Hwho as [Hc|[Hc|Hc]].
  - apply (transaction_shown _ _ _ u); [by rewrite Hc|done|]. rewrite Hr.
    rewrite bool_decide_eq_false_2 by done.
    by rewrite (bool_decide_eq_true_2 (_ = caller ic')) by done.
  - destruct Hsender as [(Hnone & Hbuyer)|Hsome].
    + apply (transaction_shown _ _ _ u); [by rewrite Hc, <- Hbuyer|done|]. rewrite Hr.
      rewrite bool_decide_eq_false_2 by done.
      by rewrite (bool_decide_eq_true_2 (_ = caller ic')) by (by rewrite Hc).
    + destruct Hm as [(_ & Hn & _)|(_ & _ & s & us & Hs & _ & Hus & Hrs)]; [congruence|].
      assert (s = caller ic) as -> by congruence.
      apply (transaction_shown _ _ _ us); [by rewrite Hc|done|]. rewrite Hrs.
      rewrite bool_decide_eq_false_2 by done.
      rewrite (bool_decide_eq_true_2 (_ = Some (caller ic'))) by (by rewrite Hc).
      apply orb_true_r.
  - apply (transaction_shown _ _ _ o); [by rewrite Hc, <- Ho, <- Hoe|done|]. rewrite Hro.
    rewrite bool_decide_eq_true_2 by done. by apply bool_decide_eq_true.
Qed.

(** Witness of [transaction_shows_in_histories]: after the sample run ["P"]
    transfers ticket ["t1"] to ["Q"]; the organizer ["O"] then finds the
    transfer in the history. *)
Lemma transaction_shows_in_histories_witness :
  hosted_run part_000 sample_calls emptyStorage
  ∧ fresh_ids (host "P" 15 "y") (TransferTicket "t1" "Q")
      (run part_000 sample_calls emptyStorage)
  ∧ (canister part_000 (host "P" 15 "y") (TransferTicket "t1" "Q")
       (run part_000 sample_calls emptyStorage)).1
    = TransactionReply (Ok (Transaction.mk "y0" "transfer" 0 "t1" (Some "P") "Q" "O" 15 15))
  ∧ ∃ mine,
      getMyTransactions part_000 (host "O" 16 "z")
        (canister part_000 (host "P" 15 "y") (TransferTicket "t1" "Q")
           (run part_000 sample_calls emptyStorage)).2
      = Ok mine
      ∧ Transaction.mk "y0" "transfer" 0 "t1" (Some "P") "Q" "O" 15 15 ∈ mine.
Proof.
  assert (fresh_ids (host "P" 15 "y") (TransferTicket "t1" "Q")
            (run part_000 sample_calls emptyStorage)) as Hfresh
    by (vm_compute; reflexivity).
  assert ((canister part_000 (host "P" 15 "y") (TransferTicket "t1" "Q")
             (run part_000 sample_calls emptyStorage)).1
          = TransactionReply
              (Ok (Transaction.mk "y0" "transfer" 0 "t1" (Some "P") "Q" "O" 15 15)))
    as Hok by (vm_compute; reflexivity).
  split; [apply sample_hosted|]. split; [exact Hfresh|]. split; [exact Hok|].
  exact (transaction_shows_in_histories part_000 sample_calls _ _ _
           (sample_hosted part_000) Hfresh Hok (host "O" 16 "z")
           (or_intror (or_intror eq_refl))).
Defined.

(** ** The two sources side by side *)

Lemma role_cases st p u :
  (∀ p u, users st !! p = Some u → User.role u ∈ USER_ROLES) →
  users st !! p = Some u →
  User.role u = "organizer" ∨ User.role u = "participant".
Proof.
  intros Hroles Hu. specialize (Hroles _ _ Hu). unfold USER_ROLES in Hroles.
  apply elem_of_cons in Hroles as [?|Hroles]; [by left|].
  apply elem_of_cons in Hroles as [?|Hroles]; [by right|]. by apply elem_of_nil in Hroles.
Qed.

(** X19. The second source only adds checks: on a store that satisfies the
    invariant, whenever a method of the second source answers without an
    error, the same call with the same host answers the same in
    [src/index.ts] and leaves the same stores. *)
Theorem second_source_only_adds_checks (ic : Host) (call : Call) (st : Storage) :
  Inv part_000 st →
  replyError (canister part_000 ic call st).1 = None →
  canister index_ts ic call st = canister part_000 ic call st.
Proof.
  intros HI H. pose proof (role_cases st) as Hrole.
  specialize (λ p u, Hrole p u (inv_user_role _ _ HI)).
  destruct call; simpl in *.
  all: try rewrite !createTickets_loop_spec in *.
  all: method_cases; absurd_case.
  all: try rewrite !createTickets_loop_spec in *; simplify_eq/=; try done.
  all: repeat match goal with
       | Hu : users _ !! _ = Some ?u |- _ =>
           lazymatch goal with
           | _ : User.role u = _ |- _ => fail
           | _ => destruct (Hrole _ _ Hu)
           end
       end; absurd_case.
  all: exfalso; lia.
Qed.

(** Witness of [second_source_only_adds_checks]: the transfer of ticket
    ["t1"] from ["P"] to ["Q"] after the sample run. *)
Lemma second_source_only_adds_checks_witness :
  Inv part_000 (sample part_000)
  ∧ replyError (canister part_000 (host "P" 15 "y") (TransferTicket "t1" "Q")
                  (sample part_000)).1 = None
  ∧ canister index_ts (host "P" 15 "y") (TransferTicket "t1" "Q") (sample part_000)
    = canister part_000 (host "P" 15 "y") (TransferTicket "t1" "Q") (sample part_000).
Proof.
  assert (replyError (canister part_000 (host "P" 15 "y") (TransferTicket "t1" "Q")
                        (sample part_000)).1 = None) as H by (vm_compute; reflexivity).
  split; [apply Inv_sample|]. split; [exact H|].
  exact (second_source_only_adds_checks _ _ _ (Inv_sample part_000) H).
Defined.

(** The converse fails: [src/index.ts] accepts an event that starts at the
    current time, the second source refuses it. *)
Example index_ts_accepts_more :
  replyError (canister index_ts (host "O" 100 "f")
                (CreateEvent (EventPayload.mk "Late" 100 "Hall")) (sample index_ts)).1
  = None
  ∧ replyError (canister part_000 (host "O" 100 "f")
                  (CreateEvent (EventPayload.mk "Late" 100 "Hall")) (sample index_ts)).1
    = Some (BadRequest "Date must be a date in the future").
Proof. split; vm_compute; reflexivity. Qed.

(** ** Listing events *)

Lemma events_run v calls st k e :
  hosted_run v calls st →
  events st !! k = Some e → events (run v calls st) !! k = Some e.
Proof.
  revert st. induction calls as [|[ic call] calls IH]; intros st Hrun He; [done|].
  destruct Hrun as (_ & Hfresh & Hrest). simpl.
  apply IH; [done|]. by apply (append_step v ic call st Hfresh).
Qed.

(** X20. An event that [createEvent] has returned is listed by [getEvents]
    from then on: after any further calls with fresh identifiers, [getEvents]
    answers [Ok] with a list that contains the event as it was returned. *)
Theorem created_event_stays_listed (v : Version) (ic : Host) (payload : EventPayload.t)
    (st : Storage) (newEvent : Event.t) (calls : list (Host * Call)) :
  (createEvent v ic payload st).1 = Ok newEvent →
  hosted_run v calls (createEvent v ic payload st).2 →
  ∃ listed,
    getEvents v (run v calls (createEvent v ic payload st).2) = Ok listed
    ∧ newEvent ∈ listed.
Proof.
  intros Hok Hrun.
  destruct (createEvent v ic payload st) as [r st1] eqn:E. simpl in *. subst r.
  apply createEvent_Ok in E as (_ & Hnew & ->).
  exists (mapValues (events (run v calls
            (setEvents st (<[uuidv4 ic 0 := newEvent]> (events st)))))).
  split; [by destruct v|].
  apply elem_of_mapValues. exists (uuidv4 ic 0).
  apply (events_run _ _ _ _ _ Hrun). simpl. by rewrite lookup_insert_eq.
Qed.

(** Witness of [created_event_stays_listed]: the organizer ["O"] creates a
    second event after the sample run, then ["P"] transfers a ticket. *)
Lemma created_event_stays_listed_witness :
  (createEvent part_000 (host "O" 15 "f") (EventPayload.mk "Fair" 200 "Park")
     (sample part_000)).1
  = Ok (Event.mk "f0" "Fair" 200 "Park" "O" 15 15)
  ∧ hosted_run part_000 [(host "P" 16 "y", TransferTicket "t1" "Q")]
      (createEvent part_000 (host "O" 15 "f") (EventPayload.mk "Fair" 200 "Park")
         (sample part_000)).2
  ∧ ∃ listed,
      getEvents part_000
        (run part_000 [(host "P" 16 "y", TransferTicket "t1" "Q")]
           (createEvent part_000 (host "O" 15 "f") (EventPayload.mk "Fair" 200 "Park")
              (sample part_000)).2)
      = Ok listed
      ∧ Event.mk "f0" "Fair" 200 "Park" "O" 15 15 ∈ listed.
Proof.
  assert ((createEvent part_000 (host "O" 15 "f") (EventPayload.mk "Fair" 200 "Park")
             (sample part_000)).1
          = Ok (Event.mk "f0" "Fair" 200 "Park" "O" 15 15)) as Hok
    by (vm_compute; reflexivity).
  assert (hosted_run part_000 [(host "P" 16 "y", TransferTicket "t1" "Q")]
            (createEvent part_000 (host "O" 15 "f") (EventPayload.mk "Fair" 200 "Park")
               (sample part_000)).2) as Hrun.
  { cbn [hosted_run admissible fresh_ids]. split_and!; try exact I.
    vm_compute. reflexivity. }
  split; [exact Hok|]. split; [exact Hrun|].
  exact (created_event_stays_listed part_000 _ _ _ _ _ Hok Hrun).
Defined.
